(** * FuXLogger: the dispatch core of [FuXLogger/core/logger.py]

    A shallow embedding of the [Logger] class: construction and its two
    configuration checks, handler management with the cached handler
    count, the three dispatch paths of [__log] (synchronous, thread-backed
    queue, event-loop-backed queue), [exception], [close], and the drain
    loops of the worker thread and of the asyncio task as transition
    systems.

    Python objects that are shared and mutated in place live in a store
    ([World]).  Handler objects are addressed by reference ([href]), so
    that the same handler registered twice is one object.  The list that
    holds the handlers is an object of the store too: a logger keeps the
    reference to the list it was given, so two loggers, or a logger and
    its caller, can hold and change the same list.  Queues, threads and
    tasks are addressed by index.  Every method is a computation in a
    state-and-exception monad over the pair of the logger object and the
    store; a raised exception keeps the mutations made before it, as in
    Python. *)

From stdpp Require Import base list strings functions.
From Stdlib Require Import ZArith.

(** ** Python values the methods inspect *)

(** Identity of a [Handler] object. *)
Definition href := nat.

(** Identity of a list object. *)
Definition lref := nat.

(** A raw number: an [int], or a [float] given by its IEEE-754 bit pattern. *)
Inductive PyNum :=
  | PyInt (z : Z)
  | PyFloat (bits : Z).

(** [LogLevel(name, level)]: a symbolic name and a numeric severity. *)
Record LogLevel := mkLogLevel {
  level_name : string;
  level_value : PyNum
}.

(** The attributes of a [Handler] object that the logger reads or writes. *)
Record Handler := mkHandler {
  hd_name : string;
  hd_level : LogLevel
}.

(** A message is text or some structured payload (an opaque object). *)
Inductive Message :=
  | MsgStr (s : string)
  | MsgObj (o : nat).

(** What a selector argument ([handler: Handler | int | str]) can be at run
    time.  [bool] is a subclass of [int] in Python. *)
Inductive PyVal :=
  | VHandler (h : href)
  | VInt (z : Z)
  | VBool (b : bool)
  | VStr (s : string)
  | VFloat (bits : Z)
  | VNone
  | VOther (cls : string).

(** [new_threshold: LogLevel | int | float]. *)
Inductive Threshold :=
  | ThLevel (l : LogLevel)
  | ThNum (n : PyNum).

(** [level: LogLevel | str]. *)
Inductive LevelArg :=
  | LvObj (l : LogLevel)
  | LvName (s : string).

(** [handlers: list[Handler] | Handler]: a list object of the caller, given
    by reference, or a single handler. *)
Inductive HandlersArg :=
  | HList (l : lref)
  | HOne (h : href).

Inductive Exn :=
  | InvalidConfigurationException (msg : string)
  | InvalidEnvironmentException (msg : string)
  | ValueError (msg : string)
  | TypeError (msg : string)
  | IndexError (msg : string)
  | RuntimeError (msg : string)
  | AttributeError (attr : string)
  | OSError (msg : string)
  | LogQueueEmptyException
  | asyncio_TimeoutError
  | asyncio_CancelledError.

(** ** Records *)

(** What [__makeRecord] reads from the interpreter when it runs: the clocks,
    the identities of thread and process, and the frame three levels up. *)
Record CallContext := {
  c_timestamp : Z;
  c_utctime : Z;
  c_threadid : Z;
  c_processid : Z;
  c_processName : string;
  c_threadName : string;
  c_stack_info : string;
  c_filename : string;
  c_lineno : Z;
  c_funcname : string;
  c_module : option string
}.

(** [LogRecord], with the keyword arguments of the constructor call in
    [__makeRecord].  [obj_id] is the identity of the record object: two
    records built by two calls of the builder are two objects. *)
Record LogRecord := {
  obj_id : nat;
  r_name : string;
  r_level : LogLevel;
  r_levelName : string;
  r_time : string;
  r_timestamp : Z;
  r_utctime : Z;
  r_threadid : Z;
  r_processid : Z;
  r_processName : string;
  r_threadName : string;
  r_stack_info : string;
  r_file : string;
  r_pathname : string;
  r_workdir : string;
  r_line : Z;
  r_function : string;
  r_module : string;
  r_message : Message
}.

(** ** The store *)

(** Where the worker thread stands in the loop of [__enqueueHandler]:
    about to call [queue.get], inside the [except] clause after a timeout,
    returned, or ended by an exception that the loop does not catch. *)
Inductive ThreadPc :=
  | AtGet
  | AtCheck
  | Finished
  | Crashed (e : Exn).

(** The task of [__async_enqueueHandler]: scheduled on the loop, ended by
    a [CancelledError] (which the loop turns into a [break]), or ended by
    an exception that the loop does not catch. *)
Inductive TaskState :=
  | Scheduled
  | Cancelled
  | Failed (e : Exn).

Record World := {
  heap : href → Handler;               (* the handler objects *)
  lists : lref → list href;            (* the list objects that hold handlers *)
  nlists : nat;                        (* the next unused list reference *)
  calls : list (href * LogRecord);     (* every [handle] call made, oldest first *)
  made : nat;                          (* number of records built so far *)
  exc_info : option string;            (* the exception being handled, if any *)
  running_loop : option nat;           (* [asyncio.get_running_loop()] *)
  entropy : nat → nat;                 (* what the n-th [uuid4()] draws *)
  uuids : nat;                         (* number of [uuid4()] draws so far *)
  lqueues : list (list LogRecord);     (* the [LogQueue] objects, oldest item first *)
  aqueues : list (list LogRecord);     (* the [asyncio.Queue] objects *)
  threads : list ThreadPc;             (* the started worker threads *)
  tasks : list TaskState;              (* the tasks created on the loop *)
  main_alive : bool                    (* [threading.main_thread().is_alive()] *)
}.

Definition with_heap (x : href → Handler) (w : World) : World :=
  {| heap := x; lists := lists w; nlists := nlists w; calls := calls w;
     made := made w; exc_info := exc_info w; running_loop := running_loop w;
     entropy := entropy w; uuids := uuids w; lqueues := lqueues w;
     aqueues := aqueues w; threads := threads w; tasks := tasks w;
     main_alive := main_alive w |}.

Definition with_lists (x : lref → list href) (w : World) : World :=
  {| heap := heap w; lists := x; nlists := nlists w; calls := calls w;
     made := made w; exc_info := exc_info w; running_loop := running_loop w;
     entropy := entropy w; uuids := uuids w; lqueues := lqueues w;
     aqueues := aqueues w; threads := threads w; tasks := tasks w;
     main_alive := main_alive w |}.

Definition with_nlists (x : nat) (w : World) : World :=
  {| heap := heap w; lists := lists w; nlists := x; calls := calls w;
     made := made w; exc_info := exc_info w; running_loop := running_loop w;
     entropy := entropy w; uuids := uuids w; lqueues := lqueues w;
     aqueues := aqueues w; threads := threads w; tasks := tasks w;
     main_alive := main_alive w |}.

Definition with_calls (x : list (href * LogRecord)) (w : World) : World :=
  {| heap := heap w; lists := lists w; nlists := nlists w; calls := x;
     made := made w; exc_info := exc_info w; running_loop := running_loop w;
     entropy := entropy w; uuids := uuids w; lqueues := lqueues w;
     aqueues := aqueues w; threads := threads w; tasks := tasks w;
     main_alive := main_alive w |}.

Definition with_made (x : nat) (w : World) : World :=
  {| heap := heap w; lists := lists w; nlists := nlists w; calls := calls w;
     made := x; exc_info := exc_info w; running_loop := running_loop w;
     entropy := entropy w; uuids := uuids w; lqueues := lqueues w;
     aqueues := aqueues w; threads := threads w; tasks := tasks w;
     main_alive := main_alive w |}.

Definition with_uuids (x : nat) (w : World) : World :=
  {| heap := heap w; lists := lists w; nlists := nlists w; calls := calls w;
     made := made w; exc_info := exc_info w; running_loop := running_loop w;
     entropy := entropy w; uuids := x; lqueues := lqueues w;
     aqueues := aqueues w; threads := threads w; tasks := tasks w;
     main_alive := main_alive w |}.

Definition with_lqueues (x : list (list LogRecord)) (w : World) : World :=
  {| heap := heap w; lists := lists w; nlists := nlists w; calls := calls w;
     made := made w; exc_info := exc_info w; running_loop := running_loop w;
     entropy := entropy w; uuids := uuids w; lqueues := x;
     aqueues := aqueues w; threads := threads w; tasks := tasks w;
     main_alive := main_alive w |}.

Definition with_aqueues (x : list (list LogRecord)) (w : World) : World :=
  {| heap := heap w; lists := lists w; nlists := nlists w; calls := calls w;
     made := made w; exc_info := exc_info w; running_loop := running_loop w;
     entropy := entropy w; uuids := uuids w; lqueues := lqueues w;
     aqueues := x; threads := threads w; tasks := tasks w;
     main_alive := main_alive w |}.

Definition with_threads (x : list ThreadPc) (w : World) : World :=
  {| heap := heap w; lists := lists w; nlists := nlists w; calls := calls w;
     made := made w; exc_info := exc_info w; running_loop := running_loop w;
     entropy := entropy w; uuids := uuids w; lqueues := lqueues w;
     aqueues := aqueues w; threads := x; tasks := tasks w;
     main_alive := main_alive w |}.

Definition with_tasks (x : list TaskState) (w : World) : World :=
  {| heap := heap w; lists := lists w; nlists := nlists w; calls := calls w;
     made := made w; exc_info := exc_info w; running_loop := running_loop w;
     entropy := entropy w; uuids := uuids w; lqueues := lqueues w;
     aqueues := aqueues w; threads := threads w; tasks := x;
     main_alive := main_alive w |}.

Definition with_main_alive (x : bool) (w : World) : World :=
  {| heap := heap w; lists := lists w; nlists := nlists w; calls := calls w;
     made := made w; exc_info := exc_info w; running_loop := running_loop w;
     entropy := entropy w; uuids := uuids w; lqueues := lqueues w;
     aqueues := aqueues w; threads := threads w; tasks := tasks w;
     main_alive := x |}.

(** The attributes of a [Logger] object once the assignments at the top of
    [__init__] have run.  [handlers] is the reference to the list object;
    the list itself is in the store.  The five resource attributes exist
    only in the mode that creates them. *)
Record Logger := {
  name : string;
  handlers : lref;
  handlers_num : nat;
  enqueue : bool;
  is_async : bool;
  uuid : nat;
  only_handler : bool;
  queue : option nat;
  log_thread : option nat;
  async_queue : option nat;
  loop : option nat;
  log_task : option nat
}.

Definition with_handlers_num (x : nat) (lg : Logger) : Logger :=
  {| name := name lg; handlers := handlers lg; handlers_num := x;
     enqueue := enqueue lg; is_async := is_async lg; uuid := uuid lg;
     only_handler := only_handler lg; queue := queue lg;
     log_thread := log_thread lg; async_queue := async_queue lg;
     loop := loop lg; log_task := log_task lg |}.

Definition with_log_task (x : option nat) (lg : Logger) : Logger :=
  {| name := name lg; handlers := handlers lg; handlers_num := handlers_num lg;
     enqueue := enqueue lg; is_async := is_async lg; uuid := uuid lg;
     only_handler := only_handler lg; queue := queue lg;
     log_thread := log_thread lg; async_queue := async_queue lg;
     loop := loop lg; log_task := x |}.

(** ** The monad of methods: state and exceptions *)

Inductive Result (A : Type) :=
  | Ok (a : A)
  | Raise (e : Exn).
Arguments Ok {A} a.
Arguments Raise {A} e.

Definition M (S A : Type) : Type := S → Result A * S.

Definition ret {S A} (a : A) : M S A := λ s, (Ok a, s).

Definition raise {S A} (e : Exn) : M S A := λ s, (Raise e, s).

Definition bind {S A B} (m : M S A) (k : A → M S B) : M S B :=
  λ s, match m s with
       | (Ok a, s') => k a s'
       | (Raise e, s') => (Raise e, s')
       end.

Definition gets {S A} (f : S → A) : M S A := λ s, (Ok (f s), s).

Definition modify {S} (f : S → S) : M S unit := λ s, (Ok tt, f s).

Global Instance M_ret {S} : MRet (M S) := λ A a, ret a.
Global Instance M_bind {S} : MBind (M S) := λ A B k m, bind m k.

(** [for x in l: body]; an exception raised by the body ends the loop. *)
Fixpoint for_each {S A} (l : list A) (body : A → M S unit) : M S unit :=
  match l with
  | [] => ret tt
  | x :: l' => bind (body x) (λ _, for_each l' body)
  end.

(** State of a method of the logger: [self] and the store. *)
Definition St : Type := Logger * World.

Definition self_ : M St Logger := gets fst.
Definition world_ : M St World := gets snd.
Definition set_self (f : Logger → Logger) : M St unit :=
  modify (λ s, (f s.1, s.2)).
Definition set_world (f : World → World) : M St unit :=
  modify (λ s, (s.1, f s.2)).

(** The list object behind [self.handlers], as it is now. *)
Definition handlers_of (s : St) : list href := lists s.2 (handlers s.1).

(** [self.handlers], read. *)
Definition handlers_ : M St (list href) := gets handlers_of.

(** The list object behind [self.handlers], changed in place. *)
Definition set_handlers (l : list href) : M St unit :=
  modify (λ s, (s.1, with_lists (<[handlers s.1 := l]> (lists s.2)) s.2)).

(** ** Python lists *)

(** [l[i]] and [del l[i]] accept [-len(l) <= i < len(l)]. *)
Definition py_index (len : nat) (i : Z) : option nat :=
  if decide (0 ≤ i < Z.of_nat len)%Z then Some (Z.to_nat i)
  else if decide (- Z.of_nat len ≤ i < 0)%Z then Some (Z.to_nat (Z.of_nat len + i))
  else None.

(** [l.remove(x)]: drop the first element equal to [x]; [None] stands for
    the [ValueError] when there is none. *)
Definition py_remove (x : href) (l : list href) : option (list href) :=
  match list_find (λ y, y = x) l with
  | Some (i, _) => Some (delete i l)
  | None => None
  end.

Definition dq : string := String (Ascii.ascii_of_nat 34) EmptyString.

(** [str(type(v))] for the message of the [TypeError]s. *)
Definition type_repr (v : PyVal) : string :=
  match v with
  | VHandler _ => "<class 'Handler'>"
  | VInt _ => "<class 'int'>"
  | VBool _ => "<class 'bool'>"
  | VStr _ => "<class 'str'>"
  | VFloat _ => "<class 'float'>"
  | VNone => "<class 'NoneType'>"
  | VOther cls => "<class '" +:+ cls +:+ "'>"
  end.

(** [isinstance(v, int)], with the index it denotes. *)
Definition as_int (v : PyVal) : option Z :=
  match v with
  | VInt z => Some z
  | VBool b => Some (if b then 1 else 0)%Z
  | _ => None
  end.

(** ** Collaborators outside [logger.py]

    The level registry ([getLevel], the constants of [Level]), the
    exception formatter, the interpreter's introspection and the class
    [Handler] are imported by [logger.py] from other modules.  They are
    taken as parameters. *)
Record Env := {
  getLevel : string → LogLevel;
  Level_TRACE : LogLevel;
  Level_DEBUG : LogLevel;
  Level_INFO : LogLevel;
  Level_WARN : LogLevel;
  Level_ERROR : LogLevel;
  Level_FATAL : LogLevel;
  (* the text that [f"{ExtractException(sys.exc_info())}"] yields *)
  ExtractException : option string → string;
  (* [GetStackTrace(5)], the clocks and the caller's frame, as seen by
     the n-th call of the record builder *)
  context : nat → CallContext;
  os_path_basename : string → string;
  os_getcwd : string;
  (* how [handler.handle(record)] ends for a handler object in a given
     state: [None] when it returns, [Some e] when it raises [e] *)
  handle_outcome : href → Handler → LogRecord → option Exn
}.

Definition newline : string := String (Ascii.ascii_of_nat 10) EmptyString.

Section Methods.

Context (env : Env).

(** *** Building and handing over records *)

Definition __makeRecord (message : Message) (level : LevelArg) : M St LogRecord :=
  lg ← self_;
  w ← world_;
  let frame := context env (made w) in
  let level := match level with
               | LvName s => getLevel env s
               | LvObj l => l
               end in
  let module := default "MainModule" (c_module frame) in
  set_world (with_made (S (made w)));;
  mret {| obj_id := made w;
          r_name := name lg;
          r_level := level;
          r_levelName := level_name level;
          r_time := "";
          r_timestamp := c_timestamp frame;
          r_utctime := c_utctime frame;
          r_threadid := c_threadid frame;
          r_processid := c_processid frame;
          r_processName := c_processName frame;
          r_threadName := c_threadName frame;
          r_stack_info := c_stack_info frame;
          r_file := os_path_basename env (c_filename frame);
          r_pathname := c_filename frame;
          r_workdir := os_getcwd env;
          r_line := c_lineno frame;
          r_function := c_funcname frame;
          r_module := module;
          r_message := message |}.

(** Modelled from the spec: the class [Handler] (module [core.handlers]) is
    not part of [logger.py]; its capability is [handle(record) -> void],
    and a handler may raise.  A call is observed as an entry of the trace
    [calls]; it then returns or raises as the collaborator says.  Whatever
    the handler does with the record, including comparing its level with
    the handler's own threshold, happens inside the handler. *)
Definition handle (handler : href) (record : LogRecord) : M St unit :=
  set_world (λ w, with_calls (calls w ++ [(handler, record)]) w);;
  w ← world_;
  match handle_outcome env handler (heap w handler) record with
  | Some e => raise e
  | None => mret tt
  end.

(** Modelled from the spec: [LogQueue] (module [utils.log_queue]) is a
    blocking first-in first-out queue; [put] appends, [get(timeout)]
    takes the oldest item, or raises [LogQueueEmptyException] when the
    queue stayed empty for the whole timeout. *)
Definition LogQueue_put (q : nat) (record : LogRecord) : M St unit :=
  set_world (λ w, with_lqueues (alter (λ items, items ++ [record]) q (lqueues w)) w).

(** [asyncio.Queue.put_nowait] on an unbounded queue. *)
Definition Queue_put_nowait (q : nat) (record : LogRecord) : M St unit :=
  set_world (λ w, with_aqueues (alter (λ items, items ++ [record]) q (aqueues w)) w).

Definition __log (level : LevelArg) (message : Message) : M St unit :=
  lg ← self_;
  if decide (handlers_num lg = 0) then
    raise (ValueError "Logger needs at lease one handler")
  else if enqueue lg then
    match queue lg with
    | None => raise (AttributeError "queue")
    | Some q => record ← __makeRecord message level; LogQueue_put q record
    end
  else if is_async lg then
    match async_queue lg with
    | None => raise (AttributeError "async_queue")
    | Some q => record ← __makeRecord message level; Queue_put_nowait q record
    end
  else
    hs ← handlers_;
    for_each hs (λ handler,
      record ← __makeRecord message level; handle handler record).

Definition exception (message : string) (is_fatal : bool) : M St unit :=
  w ← world_;
  let err_msg := ExtractException env (exc_info w) in
  let logerr_msg := message +:+ newline +:+ err_msg in
  if is_fatal then __log (LvObj (Level_FATAL env)) (MsgStr logerr_msg)
  else __log (LvObj (Level_ERROR env)) (MsgStr logerr_msg).

Definition log (level : LevelArg) (message : Message) : M St unit :=
  __log level message.







(** *** Handler management *)

Definition set_level (hd : href) (l : LogLevel) : M St unit :=
  set_world (λ w, with_heap (<[hd := mkHandler (hd_name (heap w hd)) l]> (heap w)) w).

(** [self.handlers_num = len(self.handlers)] *)
Definition recount : M St unit :=
  hs ← handlers_;
  set_self (with_handlers_num (length hs)).

Definition does_not_exist (handler : string) : Exn :=
  ValueError ("Handler " +:+ dq +:+ handler +:+ dq +:+ " does not exist").

Definition setLevelThreshold (handler : PyVal) (new_threshold : Threshold) : M St unit :=
  let new_threshold := match new_threshold with
                       | ThNum n => mkLogLevel "CUSTOM" n
                       | ThLevel l => l
                       end in
  hs ← handlers_;
  w ← world_;
  match handler with
  | VInt _ | VBool _ =>
      match as_int handler ≫= py_index (length hs) with
      | Some k =>
          match hs !! k with
          | Some hd => set_level hd new_threshold
          | None => raise (IndexError "list index out of range")
          end
      | None => raise (IndexError "list index out of range")
      end
  | VStr s =>
      match list_find (λ hd, hd_name (heap w hd) = s) hs with
      | Some (_, hd) => set_level hd new_threshold
      | None => raise (does_not_exist s)
      end
  | _ =>
      raise (TypeError ("Arg " +:+ dq +:+ "handler" +:+ dq +:+
                        " must be a LogLevel|int|float object, not " +:+ type_repr handler))
  end;;
  recount.

Definition addHandler (handler : href) : M St unit :=
  hs ← handlers_;
  set_handlers (hs ++ [handler]);;
  recount.

Definition removeHandler (handler : PyVal) : M St unit :=
  hs ← handlers_;
  w ← world_;
  match handler with
  | VHandler h =>
      match py_remove h hs with
      | Some l => set_handlers l
      | None => raise (ValueError "list.remove(x): x not in list")
      end
  | VInt _ | VBool _ =>
      match as_int handler ≫= py_index (length hs) with
      | Some k => set_handlers (delete k hs)
      | None => raise (IndexError "list assignment index out of range")
      end
  | VStr s =>
      match list_find (λ hd, hd_name (heap w hd) = s) hs with
      | Some (_, hd) =>
          match py_remove hd hs with
          | Some l => set_handlers l
          | None => raise (ValueError "list.remove(x): x not in list")
          end
      | None => raise (does_not_exist s)
      end
  | _ =>
      raise (TypeError ("Arg " +:+ dq +:+ "handler" +:+ dq +:+
                        " must be a Handler|int|str object, not " +:+ type_repr handler))
  end;;
  recount.

End Methods.

(** ** Construction

    While [__init__] runs, the object is a dictionary of the attributes
    assigned so far; a fresh object has none. *)

Inductive Attr :=
  | A_name | A_handlers | A_handlers_num | A_enqueue | A_is_async | A_uuid
  | A_only_handler | A_queue | A_log_thread | A_async_queue | A_loop | A_log_task.

Global Instance Attr_eq_dec : EqDecision Attr.
Proof. solve_decision. Defined.

Inductive AttrVal :=
  | AStr (s : string)
  | ANat (n : nat)
  | ABool (b : bool)
  | ARef (r : nat).

Definition Instance : Type := Attr → option AttrVal.

Definition blank : Instance := λ _, None.

(** State of [__init__]: the object under construction and the store. *)
Definition ISt : Type := Instance * World.

(** [self.a = v] *)
Definition setattr (a : Attr) (v : AttrVal) : M ISt unit :=
  modify (λ s, (<[a := Some v]> s.1, s.2)).

Definition init_world (f : World → World) : M ISt unit :=
  modify (λ s, (s.1, f s.2)).

(** [self.a] *)
Definition getattr (a : Attr) (what : string) : M ISt AttrVal :=
  i ← gets fst;
  match i a with
  | Some v => mret v
  | None => raise (AttributeError what)
  end.

(** [[handlers]]: a new list object that holds the one handler. *)
Definition new_list (l : list href) : M ISt lref :=
  w ← gets snd;
  init_world (λ w, with_nlists (S (nlists w)) (with_lists (<[nlists w := l]> (lists w)) w));;
  mret (nlists w).

(** [uuid.uuid4()]: a random value. *)
Definition uuid4 : M ISt nat :=
  w ← gets snd;
  init_world (with_uuids (S (uuids w)));;
  mret (entropy w (uuids w)).

(** [LogQueue()] *)
Definition new_LogQueue : M ISt nat :=
  w ← gets snd;
  init_world (with_lqueues (lqueues w ++ [[]]));;
  mret (length (lqueues w)).

(** [asyncio.Queue()] *)
Definition new_asyncio_Queue : M ISt nat :=
  w ← gets snd;
  init_world (with_aqueues (aqueues w ++ [[]]));;
  mret (length (aqueues w)).

(** [threading.Thread(target=self.__enqueueHandler, daemon=True)]
    followed by [start()]: the thread stands before its first
    [queue.get]. *)
Definition start_Thread : M ISt nat :=
  w ← gets snd;
  init_world (with_threads (threads w ++ [AtGet]));;
  mret (length (threads w)).

(** [self.loop.create_task(self.__async_enqueueHandler())] *)
Definition create_task : M ISt nat :=
  w ← gets snd;
  init_world (with_tasks (tasks w ++ [Scheduled]));;
  mret (length (tasks w)).

(** [asyncio.get_running_loop()] *)
Definition get_running_loop : M ISt nat :=
  w ← gets snd;
  match running_loop w with
  | Some l => mret l
  | None => raise (RuntimeError "no running event loop")
  end.

Definition start_async_logging : M ISt unit :=
  a ← getattr A_is_async "is_async";
  match a with
  | ABool false => mret tt
  | _ =>
      getattr A_loop "loop";;
      t ← create_task;
      setattr A_log_task (ARef t)
  end.

(** [try: body except RuntimeError: handler] *)
Definition try_except_RuntimeError {S A} (body : M S A) (handler : M S A) : M S A :=
  λ s, match body s with
       | (Raise (RuntimeError _), s') => handler s'
       | r => r
       end.

Definition __init__ (name : string) (handlers : HandlersArg)
    (enqueue is_async only_handler : bool) : M ISt unit :=
  handlers ← match handlers with
             | HList l => mret l
             | HOne h => new_list [h]
             end;
  setattr A_name (AStr name);;
  setattr A_handlers (ARef handlers);;
  w ← gets snd;
  setattr A_handlers_num (ANat (length (lists w handlers)));;
  setattr A_enqueue (ABool enqueue);;
  setattr A_is_async (ABool is_async);;
  u ← uuid4;
  setattr A_uuid (ANat u);;
  setattr A_only_handler (ABool only_handler);;
  if enqueue && is_async then
    raise (InvalidConfigurationException "Cannot use enqueue and is_async at the same time")
  else if enqueue then
    q ← new_LogQueue;
    setattr A_queue (ARef q);;
    t ← start_Thread;
    setattr A_log_thread (ARef t)
  else if is_async then
    try_except_RuntimeError
      (q ← new_asyncio_Queue;
       setattr A_async_queue (ARef q);;
       l ← get_running_loop;
       setattr A_loop (ARef l);;
       start_async_logging)
      (raise (InvalidEnvironmentException
                "Cannot use is_async outside of an asyncio event loop"))
  else mret tt.

(** The attributes of a constructed object, read back as a [Logger]. *)
Definition seal (i : Instance) : option Logger :=
  match i A_name, i A_handlers, i A_handlers_num, i A_enqueue, i A_is_async,
        i A_uuid, i A_only_handler with
  | Some (AStr n), Some (ARef h), Some (ANat k), Some (ABool e), Some (ABool a),
    Some (ANat u), Some (ABool o) =>
      let ref (a : Attr) := match i a with Some (ARef r) => Some r | _ => None end in
      Some {| name := n; handlers := h; handlers_num := k; enqueue := e;
              is_async := a; uuid := u; only_handler := o;
              queue := ref A_queue; log_thread := ref A_log_thread;
              async_queue := ref A_async_queue; loop := ref A_loop;
              log_task := ref A_log_task |}
  | _, _, _, _, _, _, _ => None
  end.

(** [Logger(name, handlers, enqueue, is_async, only_handler)]: [__init__]
    on a fresh object.  The outcome comes with the object as [__init__]
    left it, also when it raised. *)
Definition new_Logger (name : string) (handlers : HandlersArg)
    (enqueue is_async only_handler : bool) (w : World) : Result Logger * ISt :=
  match __init__ name handlers enqueue is_async only_handler (blank, w) with
  | (Ok _, s) =>
      match seal s.1 with
      | Some lg => (Ok lg, s)
      | None => (Raise (AttributeError "__init__"), s)
      end
  | (Raise e, s) => (Raise e, s)
  end.

(** ** Shutdown and the drain loops *)

Section Lifecycle.

Context (env : Env).

(** [log_task.cancel()], then [run_until_complete], whose
    [CancelledError] or [RuntimeError] is swallowed, then
    [self.log_task = None]. *)
Definition stop_async_logging : M St unit :=
  lg ← self_;
  match (if is_async lg then log_task lg else None) with
  | Some t =>
      set_world (λ w, with_tasks (<[t := Cancelled]> (tasks w)) w);;
      set_self (with_log_task None)
  | None => mret tt
  end.

(** [thread.join()] returns once the thread has ended, by a return or by
    an exception; until then the caller is blocked, which is [None]. *)
Definition Thread_join (t : nat) : St → option (Result unit * St) :=
  λ s, match threads s.2 !! t with
       | Some Finished | Some (Crashed _) => Some (Ok tt, s)
       | _ => None
       end.

Definition close : St → option (Result unit * St) :=
  λ s,
    if enqueue s.1 then
      match log_thread s.1 with
      | Some t => Thread_join t s
      | None => Some (Raise (AttributeError "log_thread"), s)
      end
    else if is_async s.1 then Some (stop_async_logging s)
    else Some (Ok tt, s).

(** [for handler in self.handlers: handler.handle(record)], the body that
    both drain loops run on a record taken from their queue. *)
Definition fan_out (record : LogRecord) : M St unit :=
  hs ← handlers_;
  for_each hs (λ handler, handle env handler record).

Definition set_pc (t : nat) (pc : ThreadPc) (s : St) : St :=
  (s.1, with_threads (<[t := pc]> (threads s.2)) s.2).

Definition set_task (t : nat) (ts : TaskState) (s : St) : St :=
  (s.1, with_tasks (<[t := ts]> (tasks s.2)) s.2).

(** The [try] statement of [__enqueueHandler] once its body has ended
    with [r]: after a normal end the loop goes round;
    [LogQueueEmptyException] is the one exception the statement catches,
    and control enters the [except] clause; any other exception ends the
    thread. *)
Definition worker_try (t : nat) (r : Result unit) (s : St) : St :=
  match r with
  | Ok _ => s
  | Raise LogQueueEmptyException => set_pc t AtCheck s
  | Raise e => set_pc t (Crashed e) s
  end.

(** One [queue.get(timeout=0.1)] of [__enqueueHandler], run by thread
    [t]: with an item in the queue, take the oldest and hand it to the
    handlers; with an empty queue the timeout expires, which raises
    [LogQueueEmptyException]. *)
Definition __enqueueHandler_get (t q : nat) (s : St) : option St :=
  match threads s.2 !! t with
  | Some AtGet =>
      match lqueues s.2 !! q with
      | Some (record :: rest) =>
          match fan_out record (s.1, with_lqueues (<[q := rest]> (lqueues s.2)) s.2) with
          | (r, s') => Some (worker_try t r s')
          end
      | Some [] => Some (worker_try t (Raise LogQueueEmptyException) s)
      | None => None
      end
  | _ => None
  end.

(** The [except LogQueueEmptyException] clause: [break] when the main
    thread is gone, [continue] otherwise. *)
Definition __enqueueHandler_except (t : nat) (s : St) : option St :=
  match threads s.2 !! t with
  | Some AtCheck => Some (set_pc t (if main_alive s.2 then AtGet else Finished) s)
  | _ => None
  end.

(** The [try] statement of [__async_enqueueHandler] once its body has
    ended with [r]: after a normal end and after
    [asyncio.TimeoutError] the loop goes round; [asyncio.CancelledError]
    leaves the loop, which ends the task; any other exception is not
    caught and ends the task too. *)
Definition task_try (t : nat) (r : Result unit) (s : St) : St :=
  match r with
  | Ok _ => s
  | Raise asyncio_TimeoutError => s
  | Raise asyncio_CancelledError => set_task t Cancelled s
  | Raise e => set_task t (Failed e) s
  end.

(** One round of [__async_enqueueHandler], run by task [t], while the
    task has not ended: with an item in [self.async_queue], take the
    oldest and hand it to the handlers; with an empty queue the timeout
    expires, which raises [asyncio.TimeoutError]. *)
Definition __async_enqueueHandler_round (t : nat) (s : St) : option St :=
  match tasks s.2 !! t, async_queue s.1 with
  | Some Scheduled, Some q =>
      match aqueues s.2 !! q with
      | Some (record :: rest) =>
          match fan_out record (s.1, with_aqueues (<[q := rest]> (aqueues s.2)) s.2) with
          | (r, s') => Some (task_try t r s')
          end
      | Some [] => Some (task_try t (Raise asyncio_TimeoutError) s)
      | None => None
      end
  | _, _ => None
  end.

(** The logger and its worker thread as a transition system.  The
    producers' steps are whole [log] calls, the worker's steps are the
    two above, and the main thread may end. *)
Inductive Event :=
  | EvLog (level : LevelArg) (message : Message)
  | EvPoll
  | EvCheck
  | EvMainExit.

Definition step (ev : Event) (s : St) : option St :=
  match ev with
  | EvLog level message => Some (log env level message s).2
  | EvPoll =>
      match log_thread s.1, queue s.1 with
      | Some t, Some q => __enqueueHandler_get t q s
      | _, _ => None
      end
  | EvCheck =>
      match log_thread s.1 with
      | Some t => __enqueueHandler_except t s
      | None => None
      end
  | EvMainExit => Some (s.1, with_main_alive false s.2)
  end.

Fixpoint run (evs : list Event) (s : St) : option St :=
  match evs with
  | [] => Some s
  | ev :: evs' => step ev s ≫= run evs'
  end.

(** [n] rounds of the task [t]. *)
Fixpoint async_rounds (t n : nat) (s : St) : option St :=
  match n with
  | 0 => Some s
  | S n' => __async_enqueueHandler_round t s ≫= async_rounds t n'
  end.

End Lifecycle.

(** ** Notions used in the statements *)

(** The cached count agrees with the list. *)
Definition count_ok (s : St) : Prop :=
  handlers_num s.1 = length (handlers_of s).

(** A logger in synchronous mode. *)
Definition synchronous (lg : Logger) : Prop :=
  enqueue lg = false ∧ is_async lg = false.

(** No handler of the list [hs] raises, whatever record it is given. *)
Definition quiet (env : Env) (w : World) (hs : list href) : Prop :=
  ∀ h, h ∈ hs → ∀ record, handle_outcome env h (heap w h) record = None.

(** The [handle] calls that pass one record to each handler of a list. *)
Definition deliveries (hs : list href) (record : LogRecord) : list (href * LogRecord) :=
  (λ h, (h, record)) <$> hs.

(** Every record passed to every handler, record by record. *)
Definition all_deliveries (hs : list href) (records : list LogRecord)
    : list (href * LogRecord) :=
  mjoin (deliveries hs <$> records).

(** The record that the builder returns when it is the [n]-th to run. *)
Definition record_at (env : Env) (lg : Logger) (level : LevelArg) (message : Message)
    (n : nat) : LogRecord :=
  let frame := context env n in
  let level := match level with
               | LvName s => getLevel env s
               | LvObj l => l
               end in
  {| obj_id := n;
     r_name := name lg;
     r_level := level;
     r_levelName := level_name level;
     r_time := "";
     r_timestamp := c_timestamp frame;
     r_utctime := c_utctime frame;
     r_threadid := c_threadid frame;
     r_processid := c_processid frame;
     r_processName := c_processName frame;
     r_threadName := c_threadName frame;
     r_stack_info := c_stack_info frame;
     r_file := os_path_basename env (c_filename frame);
     r_pathname := c_filename frame;
     r_workdir := os_getcwd env;
     r_line := c_lineno frame;
     r_function := c_funcname frame;
     r_module := default "MainModule" (c_module frame);
     r_message := message |}.

(** The records of one synchronous [log] call that starts when [n]
    records exist and reaches every handler: one per handler. *)
Definition sync_records (env : Env) (lg : Logger) (level : LevelArg) (message : Message)
    (n : nat) (hs : list href) : list LogRecord :=
  record_at env lg level message <$> seq n (length hs).

(** What a loop over the handlers [hs] does when the handler at position
    [i] is called with the record [mk (n + i)]: the calls it makes, the
    last of which is the one that raised if one did, and the exception
    that ended it. *)
Fixpoint loop_trace (env : Env) (objects : href → Handler) (mk : nat → LogRecord)
    (n : nat) (hs : list href) : list (href * LogRecord) * option Exn :=
  match hs with
  | [] => ([], None)
  | h :: hs' =>
      match handle_outcome env h (objects h) (mk n) with
      | Some e => ([(h, mk n)], Some e)
      | None =>
          let r := loop_trace env objects mk (S n) hs' in
          ((h, mk n) :: r.1, r.2)
      end
  end.

(** How a loop ends. *)
Definition ending (o : option Exn) : Result unit :=
  match o with
  | Some e => Raise e
  | None => Ok tt
  end.

(** The trace of the loop of a synchronous [log] call. *)
Definition sync_trace (env : Env) (lg : Logger) (w : World) (level : LevelArg)
    (message : Message) : list (href * LogRecord) * option Exn :=
  loop_trace env (heap w) (record_at env lg level message) (made w) (handlers_of (lg, w)).

(** The trace of the loop of a drain loop on one record. *)
Definition fan_trace (env : Env) (lg : Logger) (w : World) (record : LogRecord)
    : list (href * LogRecord) * option Exn :=
  loop_trace env (heap w) (λ _, record) 0 (handlers_of (lg, w)).

Definition no_handler : Exn := ValueError "Logger needs at lease one handler".

(** A selector that is a [Handler], an [int] (or [bool]) or a [str]. *)
Definition handler_int_or_str (v : PyVal) : bool :=
  match v with
  | VHandler _ | VInt _ | VBool _ | VStr _ => true
  | VFloat _ | VNone | VOther _ => false
  end.

(** The handler that [setLevelThreshold] selects: the one at the index,
    or the first one in list order that carries the name. *)
Definition selected (s : St) (handler : PyVal) : option href :=
  match handler with
  | VInt _ | VBool _ =>
      k ← as_int handler ≫= py_index (length (handlers_of s)); handlers_of s !! k
  | VStr n => snd <$> list_find (λ hd, hd_name (heap s.2 hd) = n) (handlers_of s)
  | _ => None
  end.




(** The list object that [__init__] stores for its [handlers] argument,
    and the store once a single handler has been wrapped in a new list. *)
Definition arg_list (hs : HandlersArg) (w : World) : lref :=
  match hs with
  | HList l => l
  | HOne _ => nlists w
  end.

Definition arg_world (hs : HandlersArg) (w : World) : World :=
  match hs with
  | HList _ => w
  | HOne h => with_nlists (S (nlists w)) (with_lists (<[nlists w := [h]]> (lists w)) w)
  end.

(** The handlers in the list at construction. *)
Definition arg_handlers (hs : HandlersArg) (w : World) : list href :=
  match hs with
  | HList l => lists w l
  | HOne h => [h]
  end.

(** The object after the assignments that open [__init__]. *)
Definition plain_attrs (name : string) (hs : HandlersArg) (w : World)
    (enqueue is_async only_handler : bool) : Instance :=
  <[A_only_handler := Some (ABool only_handler)]>
    (<[A_uuid := Some (ANat (entropy w (uuids w)))]>
       (<[A_is_async := Some (ABool is_async)]>
          (<[A_enqueue := Some (ABool enqueue)]>
             (<[A_handlers_num := Some (ANat (length (arg_handlers hs w)))]>
                (<[A_handlers := Some (ARef (arg_list hs w))]>
                   (<[A_name := Some (AStr name)]> blank)))))).

(** The store after the assignments that open [__init__]. *)
Definition plain_world (hs : HandlersArg) (w : World) : World :=
  with_uuids (S (uuids w)) (arg_world hs w).

(** A logger with the given plain attributes and resources. *)
Definition logger_with (name : string) (hs : HandlersArg) (w : World)
    (enqueue is_async only_handler : bool)
    (queue log_thread async_queue loop log_task : option nat) : Logger :=
  {| name := name; handlers := arg_list hs w;
     handlers_num := length (arg_handlers hs w); enqueue := enqueue;
     is_async := is_async; uuid := entropy w (uuids w);
     only_handler := only_handler;
     queue := queue; log_thread := log_thread; async_queue := async_queue;
     loop := loop; log_task := log_task |}.

Definition both_modes : Exn :=
  InvalidConfigurationException "Cannot use enqueue and is_async at the same time".

Definition no_loop : Exn :=
  InvalidEnvironmentException "Cannot use is_async outside of an asyncio event loop".

(** "Never partially initializes", read literally: construction with
    both modes fails and leaves the fresh object and the store as they
    were. *)
Definition fails_untouched (name : string) (hs : HandlersArg) (only_handler : bool)
    (w : World) : Prop :=
  ∃ e, new_Logger name hs true true only_handler w = (Raise e, (blank, w)).

(** The level [exception] logs at. *)
Definition exception_level (env : Env) (is_fatal : bool) : LogLevel :=
  if is_fatal then Level_FATAL env else Level_ERROR env.

(** The text [exception] logs: the message, a line break, the trace. *)
Definition exception_text (env : Env) (w : World) (message : string) : string :=
  message +:+ newline +:+ ExtractException env (exc_info w).

(** The records that the [log] calls of a run put into the queue, oldest
    first: a call on a logger whose cached count is 0 raises and queues
    nothing. *)
Fixpoint enqueued (env : Env) (evs : list Event) (s : St) : list LogRecord :=
  match evs with
  | [] => []
  | ev :: evs' =>
      match ev with
      | EvLog level message =>
          if decide (handlers_num s.1 = 0) then []
          else [record_at env s.1 level message (made s.2)]
      | _ => []
      end ++
      match step env ev s with
      | Some s' => enqueued env evs' s'
      | None => []
      end
  end.



Definition index_out_of_range : Exn := IndexError "list assignment index out of range".

Definition not_in_list : Exn := ValueError "list.remove(x): x not in list".

(** The state after a successful removal that leaves the list [l]. *)
Definition after_removal (l : list href) (s : St) : St :=
  (with_handlers_num (length l) s.1,
   with_lists (<[handlers s.1 := l]> (lists s.2)) s.2).

(** The exception of a [setLevelThreshold] call whose selector selects
    nothing, by the kind of the selector. *)
Definition no_selection_error (handler : PyVal) : Exn :=
  match handler with
  | VInt _ | VBool _ => IndexError "list index out of range"
  | VStr s => does_not_exist s
  | _ => TypeError ("Arg " +:+ dq +:+ "handler" +:+ dq +:+
                    " must be a LogLevel|int|float object, not " +:+ type_repr handler)
  end.

(** The level object that [setLevelThreshold] assigns. *)
Definition as_level (new_threshold : Threshold) : LogLevel :=
  match new_threshold with
  | ThNum n => mkLogLevel "CUSTOM" n
  | ThLevel l => l
  end.

(** [n] polls of the worker in a row. *)
Definition polls (n : nat) : list Event := replicate n EvPoll.

(** The end of the main thread, the poll that times out, and the
    [except] clause that follows it. *)
Definition shutdown : list Event := [EvMainExit; EvPoll; EvCheck].

(** A run in which the main thread does not end. *)
Definition main_stays (evs : list Event) : bool :=
  forallb (λ ev, match ev with EvMainExit => false | _ => true end) evs.

(** The level object that the record builder stores. *)
Definition resolve (env : Env) (level : LevelArg) : LogLevel :=
  match level with
  | LvName s => getLevel env s
  | LvObj l => l
  end.

(** A thread that has ended, by a return or by an exception. *)
Definition ended (pc : ThreadPc) : Prop :=
  pc = Finished ∨ ∃ e, pc = Crashed e.

(** ** A sample environment, for the concrete runs *)

Module Sample.

Definition lvl (n : string) (v : Z) : LogLevel := mkLogLevel n (PyInt v).

Definition frame0 : CallContext :=
  {| c_timestamp := 1000; c_utctime := 900; c_threadid := 1; c_processid := 77;
     c_processName := "MainProcess"; c_threadName := "MainThread";
     c_stack_info := ""; c_filename := "/srv/app/main.py"; c_lineno := 12;
     c_funcname := "run"; c_module := Some "__main__" |}.

(** Handler 9 writes to a full disk and raises; every other handler
    returns. *)
Definition env0 : Env :=
  {| getLevel := λ s, lvl s 0;
     Level_TRACE := lvl "TRACE" 0;
     Level_DEBUG := lvl "DEBUG" 10;
     Level_INFO := lvl "INFO" 20;
     Level_WARN := lvl "WARN" 30;
     Level_ERROR := lvl "ERROR" 40;
     Level_FATAL := lvl "FATAL" 50;
     ExtractException := λ e, default "" e;
     context := λ _, frame0;
     os_path_basename := λ _, "main.py";
     os_getcwd := "/srv/app";
     handle_outcome := λ h _ _, if decide (h = 9) then Some (OSError "disk full")
                                else None |}.

(** Handler 0 is a console handler with threshold ERROR, every other
    handler is a file handler with threshold TRACE. *)
Definition heap0 : href → Handler :=
  λ h, if decide (h = 0) then mkHandler "console" (lvl "ERROR" 40)
       else mkHandler "file" (lvl "TRACE" 0).

(** A store without loggers; list references below 10 stand for lists of
    the caller. *)
Definition world0 : World :=
  {| heap := heap0; lists := λ _, []; nlists := 10; calls := []; made := 0;
     exc_info := None; running_loop := None; entropy := λ n, 4000 + n;
     uuids := 0; lqueues := []; aqueues := []; threads := []; tasks := [];
     main_alive := true |}.

(** The store in which the caller's list 0 holds the handlers [hs]. *)
Definition world_of (hs : list href) : World :=
  with_lists (<[0 := hs]> (lists world0)) world0.

(** A synchronous logger over list 0, with the count of [hs]. *)
Definition plain (hs : list href) : Logger :=
  {| name := "app"; handlers := 0; handlers_num := length hs; enqueue := false;
     is_async := false; uuid := 0; only_handler := false; queue := None;
     log_thread := None; async_queue := None; loop := None; log_task := None |}.

Definition sync (hs : list href) : St := (plain hs, world_of hs).

End Sample.

Module SampleRuns.

(** The logger over handlers 0 and 1 in thread-backed mode, with the
    store, as construction leaves them. *)
Definition queued : St :=
  match new_Logger "app" (HList 0) true false false (Sample.world_of [0; 1]) with
  | (Ok lg, s) => (lg, s.2)
  | (Raise _, s) => (Sample.plain [], s.2)
  end.





End SampleRuns.

Module SampleMore.

(** A store in which event loop 7 is running and the caller's list 0
    holds handlers 0 and 1. *)
Definition looped : World :=
  {| heap := Sample.heap0; lists := <[0 := [0; 1]]> (λ _, []); nlists := 10;
     calls := []; made := 0; exc_info := None; running_loop := Some 7;
     entropy := λ n, 4000 + n; uuids := 0; lqueues := []; aqueues := [];
     threads := []; tasks := []; main_alive := true |}.

(** The loop-backed logger over handlers 0 and 1, with the store, as
    construction leaves them. *)
Definition looping : St :=
  match new_Logger "app" (HList 0) false true false looped with
  | (Ok lg, s) => (lg, s.2)
  | (Raise _, s) => (Sample.plain [], s.2)
  end.

(** Two records waiting in the queue of the thread-backed logger. *)
Definition backlog : list LogRecord :=
  [record_at Sample.env0 SampleRuns.queued.1 (LvName "INFO") (MsgStr "a") 0;
   record_at Sample.env0 SampleRuns.queued.1 (LvName "INFO") (MsgStr "b") 1].

Definition loaded : St :=
  (SampleRuns.queued.1,
   with_lqueues [backlog] (with_made 2 SampleRuns.queued.2)).

(** The thread-backed logger after its worker has returned. *)
Definition stopped : St :=
  (SampleRuns.queued.1,
   with_threads [Finished] (with_main_alive false SampleRuns.queued.2)).

(** The store of the loop-backed logger with the two records in its
    asyncio queue. *)
Definition pending_async : World :=
  with_aqueues [backlog] (with_made 2 looping.2).

(** A thread-backed logger with the single handler 0, as constructed. *)
Definition single : St :=
  match new_Logger "app" (HOne 0) true false false Sample.world0 with
  | (Ok lg, s) => (lg, s.2)
  | (Raise _, s) => (Sample.plain [], s.2)
  end.

(** Two thread-backed loggers, constructed one after the other. *)
Definition built_a : Result Logger * ISt :=
  new_Logger "a" (HOne 0) true false false Sample.world0.

Definition built_b : Result Logger * ISt :=
  new_Logger "b" (HOne 1) true false false built_a.2.2.

Definition logger_a : Logger :=
  logger_with "a" (HOne 0) Sample.world0 true false false
    (Some 0) (Some 0) None None None.

Definition logger_b : Logger :=
  logger_with "b" (HOne 1) built_a.2.2 true false false
    (Some 1) (Some 1) None None None.

End SampleMore.

Module Shared.

(** Two synchronous loggers constructed over the same list object, list
    0 of the caller, which holds handler 0. *)
Definition built_a : Result Logger * ISt :=
  new_Logger "a" (HList 0) false false false (Sample.world_of [0]).

Definition built_b : Result Logger * ISt :=
  new_Logger "b" (HList 0) false false false built_a.2.2.

Definition logger_a : Logger :=
  logger_with "a" (HList 0) (Sample.world_of [0]) false false false
    None None None None None.

Definition logger_b : Logger :=
  logger_with "b" (HList 0) built_a.2.2 false false false None None None None None.




End Shared.

(** ** Basic facts about the monad, the builder and the loops *)

Ltac unfold_m :=
  unfold mbind, mret, M_bind, M_ret, bind, ret, raise, self_, world_, handlers_,
    set_self, set_world, set_handlers, gets, modify in *.

Lemma World_eta (w : World) :
  {| heap := heap w; lists := lists w; nlists := nlists w; calls := calls w;
     made := made w; exc_info := exc_info w; running_loop := running_loop w;
     entropy := entropy w; uuids := uuids w; lqueues := lqueues w;
     aqueues := aqueues w; threads := threads w; tasks := tasks w;
     main_alive := main_alive w |} = w.
Proof. by destruct w. Qed.

Lemma makeRecord_eq env message level lg w :
  __makeRecord env message level (lg, w)
  = (Ok (record_at env lg level message (made w)), (lg, with_made (S (made w)) w)).
Proof. reflexivity. Qed.

Lemma handle_eq env handler record lg w :
  handle env handler record (lg, w)
  = (ending (handle_outcome env handler (heap w handler) record),
     (lg, with_calls (calls w ++ [(handler, record)]) w)).
Proof.
  unfold handle. unfold_m. cbn [fst snd heap with_calls].
  by destruct (handle_outcome _ _ _ _).
Qed.

(** The loop of the synchronous branch of [__log]. *)
Lemma sync_loop_eq env level message lg hs w :
  for_each hs (λ handler,
    record ← __makeRecord env message level; handle env handler record) (lg, w)
  = (ending (loop_trace env (heap w) (record_at env lg level message) (made w) hs).2,
     (lg, with_calls
            (calls w ++ (loop_trace env (heap w) (record_at env lg level message)
                           (made w) hs).1)
            (with_made
               (made w + length (loop_trace env (heap w) (record_at env lg level message)
                                   (made w) hs).1) w))).
Proof.
  revert w. induction hs as [|h hs IH]; intros w.
  - simpl. unfold ret, with_calls, with_made. simpl.
    rewrite app_nil_r, Nat.add_0_r. by rewrite World_eta.
  - cbn [for_each loop_trace]. unfold bind at 1.
    change ((record ← __makeRecord env message level; handle env h record) (lg, w))
      with (handle env h (record_at env lg level message (made w))
              (lg, with_made (S (made w)) w)).
    rewrite handle_eq. cbn [heap with_made calls].
    destruct (handle_outcome env h (heap w h) (record_at env lg level message (made w)))
      as [e|].
    + simpl. unfold with_calls, with_made. simpl.
      by replace (made w + 1) with (S (made w)) by lia.
    + cbn [ending]. rewrite IH. cbn [fst snd heap with_calls with_made made calls length].
      unfold with_calls, with_made. simpl. rewrite <- app_assoc. simpl.
      by replace (S (made w + length
                (loop_trace env (heap w) (record_at env lg level message) (S (made w)) hs).1))
        with (made w + S (length
                (loop_trace env (heap w) (record_at env lg level message) (S (made w)) hs).1))
        by lia.
Qed.

(** The loop of the two drain loops. *)
Lemma fan_loop_eq env record lg hs : ∀ n w,
  for_each hs (λ handler, handle env handler record) (lg, w)
  = (ending (loop_trace env (heap w) (λ _, record) n hs).2,
     (lg, with_calls (calls w ++ (loop_trace env (heap w) (λ _, record) n hs).1) w)).
Proof.
  induction hs as [|h hs IH]; intros n w.
  - simpl. unfold ret, with_calls. rewrite app_nil_r. by rewrite World_eta.
  - cbn [for_each loop_trace]. unfold bind at 1. rewrite handle_eq.
    destruct (handle_outcome env h (heap w h) record) as [e|].
    + reflexivity.
    + cbn [ending]. rewrite (IH (S n)). cbn [fst snd heap with_calls calls].
      unfold with_calls. simpl. by rewrite <- app_assoc.
Qed.

Lemma fan_out_eq env record lg w :
  fan_out env record (lg, w)
  = (ending (fan_trace env lg w record).2,
     (lg, with_calls (calls w ++ (fan_trace env lg w record).1) w)).
Proof.
  unfold fan_out, fan_trace. unfold mbind, M_bind, bind at 1, handlers_, gets.
  apply fan_loop_eq.
Qed.

(** *** What a loop can do *)

Lemma loop_trace_quiet env objects mk hs : ∀ n,
  (∀ h, h ∈ hs → ∀ record, handle_outcome env h (objects h) record = None) →
  loop_trace env objects mk n hs = (zip hs (mk <$> seq n (length hs)), None).
Proof.
  induction hs as [|h hs IH]; intros n Hq; [done |].
  cbn [loop_trace]. rewrite Hq by apply list_elem_of_here.
  rewrite IH by (intros h' Hh'; apply Hq; by apply list_elem_of_further).
  reflexivity.
Qed.


Lemma loop_trace_records env objects mk hs : ∀ n,
  (loop_trace env objects mk n hs).1.*2
  = mk <$> seq n (length (loop_trace env objects mk n hs).1).
Proof.
  induction hs as [|h hs IH]; intros n; [done |].
  cbn [loop_trace]. destruct (handle_outcome _ _ _ _); [done |].
  simpl. by rewrite <- IH.
Qed.

Lemma loop_trace_length env objects mk hs : ∀ n,
  length (loop_trace env objects mk n hs).1 ≤ length hs ∧
  ((loop_trace env objects mk n hs).2 = None →
   length (loop_trace env objects mk n hs).1 = length hs) ∧
  (hs ≠ [] → (loop_trace env objects mk n hs).1 ≠ []).
Proof.
  induction hs as [|h hs IH]; intros n; [done |].
  cbn [loop_trace]. destruct (handle_outcome _ _ _ _).
  - simpl. split; [lia |]. split; [discriminate | done].
  - destruct (IH (S n)) as (H1 & H2 & _). simpl.
    split; [lia |]. split; [| done]. intros Hn. by rewrite H2.
Qed.


Lemma zip_const_deliveries hs record n :
  zip hs ((λ _ : nat, record) <$> seq n (length hs)) = deliveries hs record.
Proof.
  revert n. induction hs as [|h hs IH]; intros n; [done |].
  simpl. by rewrite IH.
Qed.

Lemma fan_trace_quiet env lg w record :
  quiet env w (handlers_of (lg, w)) →
  fan_trace env lg w record = (deliveries (handlers_of (lg, w)) record, None).
Proof.
  intros Hq. unfold fan_trace. rewrite loop_trace_quiet by done.
  by rewrite zip_const_deliveries.
Qed.

Lemma sync_trace_quiet env lg w level message :
  quiet env w (handlers_of (lg, w)) →
  sync_trace env lg w level message
  = (zip (handlers_of (lg, w))
       (sync_records env lg level message (made w) (handlers_of (lg, w))), None).
Proof. intros Hq. unfold sync_trace. by rewrite loop_trace_quiet. Qed.

(** ** The branches of [__log] *)

(** The outcome of [__log] in each of its branches. *)
Lemma log_cases env level message lg w :
  __log env level message (lg, w)
  = if decide (handlers_num lg = 0) then (Raise no_handler, (lg, w))
    else if enqueue lg then
      match queue lg with
      | Some q =>
          (Ok tt, (lg, with_lqueues
                         (alter (λ items, items ++ [record_at env lg level message (made w)])
                            q (lqueues w))
                         (with_made (S (made w)) w)))
      | None => (Raise (AttributeError "queue"), (lg, w))
      end
    else if is_async lg then
      match async_queue lg with
      | Some q =>
          (Ok tt, (lg, with_aqueues
                         (alter (λ items, items ++ [record_at env lg level message (made w)])
                            q (aqueues w))
                         (with_made (S (made w)) w)))
      | None => (Raise (AttributeError "async_queue"), (lg, w))
      end
    else
      (ending (sync_trace env lg w level message).2,
       (lg, with_calls (calls w ++ (sync_trace env lg w level message).1)
              (with_made (made w + length (sync_trace env lg w level message).1) w))).
Proof.
  unfold __log. unfold mbind, M_bind, bind at 1, self_, gets. cbn [fst snd].
  destruct (decide (handlers_num lg = 0)); [done |].
  destruct (enqueue lg); [by destruct (queue lg) |].
  destruct (is_async lg); [by destruct (async_queue lg) |].
  unfold bind at 1, handlers_, gets. apply sync_loop_eq.
Qed.

Lemma log_empty_eq env level message lg w :
  handlers_num lg = 0 →
  __log env level message (lg, w) = (Raise no_handler, (lg, w)).
Proof. intros Hn. rewrite log_cases. by rewrite decide_True. Qed.

Lemma log_sync_eq env level message lg w :
  synchronous lg → handlers_num lg ≠ 0 →
  __log env level message (lg, w)
  = (ending (sync_trace env lg w level message).2,
     (lg, with_calls (calls w ++ (sync_trace env lg w level message).1)
            (with_made (made w + length (sync_trace env lg w level message).1) w))).
Proof.
  intros [He Ha] Hn. rewrite log_cases. rewrite decide_False by done.
  by rewrite He, Ha.
Qed.

Lemma log_sync_quiet env level message lg w :
  synchronous lg → handlers_num lg ≠ 0 → quiet env w (handlers_of (lg, w)) →
  __log env level message (lg, w)
  = (Ok tt, (lg, with_calls
                   (calls w ++ zip (handlers_of (lg, w))
                      (sync_records env lg level message (made w) (handlers_of (lg, w))))
                   (with_made (made w + length (handlers_of (lg, w))) w))).
Proof.
  intros Hs Hn Hq. rewrite log_sync_eq by done. rewrite sync_trace_quiet by done.
  cbn [fst snd ending]. rewrite length_zip. unfold sync_records at 2.
  rewrite length_fmap, length_seq. by rewrite Nat.min_id.
Qed.

Lemma log_enqueue_eq env level message lg w q :
  enqueue lg = true → queue lg = Some q → handlers_num lg ≠ 0 →
  __log env level message (lg, w)
  = (Ok tt, (lg, with_lqueues
                   (alter (λ items, items ++ [record_at env lg level message (made w)])
                      q (lqueues w))
                   (with_made (S (made w)) w))).
Proof.
  intros He Hq Hn. rewrite log_cases. rewrite decide_False by done.
  by rewrite He, Hq.
Qed.

Lemma log_async_eq env level message lg w q :
  enqueue lg = false → is_async lg = true → async_queue lg = Some q →
  handlers_num lg ≠ 0 →
  __log env level message (lg, w)
  = (Ok tt, (lg, with_aqueues
                   (alter (λ items, items ++ [record_at env lg level message (made w)])
                      q (aqueues w))
                   (with_made (S (made w)) w))).
Proof.
  intros He Ha Hq Hn. rewrite log_cases. rewrite decide_False by done.
  by rewrite He, Ha, Hq.
Qed.


Lemma sync_records_length env lg level message n hs :
  length (sync_records env lg level message n hs) = length hs.
Proof. unfold sync_records. by rewrite length_fmap, length_seq. Qed.

Lemma sync_records_ids env lg level message n hs :
  obj_id <$> sync_records env lg level message n hs = seq n (length hs).
Proof.
  unfold sync_records. rewrite <- list_fmap_compose.
  rewrite <- (list_fmap_id (seq n (length hs))) at 2.
  by apply list_fmap_ext.
Qed.

Lemma loop_trace_zip env objects mk hs : ∀ n,
  (loop_trace env objects mk n hs).1
  = zip hs (mk <$> seq n (length (loop_trace env objects mk n hs).1)).
Proof.
  induction hs as [|h hs IH]; intros n; [done |].
  cbn [loop_trace]. destruct (handle_outcome _ _ _ _); [simpl; by destruct hs |].
  simpl. by rewrite <- IH.
Qed.


(** ** Logging without handlers *)




(** ** Synchronous dispatch *)




(** ** How many records a log call builds *)

(** What the two [try] statements can do to a state: nothing to the
    logger, and nothing to the store but the state of the thread or
    task. *)
Lemma worker_try_cases t r s :
  worker_try t r s = s ∨ worker_try t r s = set_pc t AtCheck s ∨
  ∃ e, r = Raise e ∧ worker_try t r s = set_pc t (Crashed e) s.
Proof.
  destruct r as [[]|e]; [by left |].
  destruct e; try (right; right; eexists; split; reflexivity). right. by left.
Qed.


Lemma worker_try_frame t r s :
  (worker_try t r s).1 = s.1 ∧
  calls (worker_try t r s).2 = calls s.2 ∧
  heap (worker_try t r s).2 = heap s.2 ∧
  lists (worker_try t r s).2 = lists s.2 ∧
  lqueues (worker_try t r s).2 = lqueues s.2 ∧
  made (worker_try t r s).2 = made s.2 ∧
  main_alive (worker_try t r s).2 = main_alive s.2.
Proof.
  destruct (worker_try_cases t r s) as [-> | [-> | (e & _ & ->)]]; done.
Qed.




Lemma poll_head_eq env lg w t q record rest :
  log_thread lg = Some t → queue lg = Some q →
  threads w !! t = Some AtGet → lqueues w !! q = Some (record :: rest) →
  step env EvPoll (lg, w)
  = Some (worker_try t (ending (fan_trace env lg w record).2)
            (lg, with_calls (calls w ++ (fan_trace env lg w record).1)
                   (with_lqueues (<[q := rest]> (lqueues w)) w))).
Proof.
  intros Ht Hq Hpc Hitems. unfold step, __enqueueHandler_get. cbn [fst snd].
  by rewrite Ht, Hq, Hpc, Hitems, fan_out_eq.
Qed.

Lemma async_round_head_eq env lg w t q record rest :
  async_queue lg = Some q →
  tasks w !! t = Some Scheduled → aqueues w !! q = Some (record :: rest) →
  __async_enqueueHandler_round env t (lg, w)
  = Some (task_try t (ending (fan_trace env lg w record).2)
            (lg, with_calls (calls w ++ (fan_trace env lg w record).1)
                   (with_aqueues (<[q := rest]> (aqueues w)) w))).
Proof.
  intros Hq Hpc Hitems. unfold __async_enqueueHandler_round. cbn [fst snd].
  by rewrite Hq, Hpc, Hitems, fan_out_eq.
Qed.

Lemma poll_head_quiet env lg w t q record rest :
  log_thread lg = Some t → queue lg = Some q →
  threads w !! t = Some AtGet → lqueues w !! q = Some (record :: rest) →
  quiet env w (handlers_of (lg, w)) →
  step env EvPoll (lg, w)
  = Some (lg, with_calls (calls w ++ deliveries (handlers_of (lg, w)) record)
                (with_lqueues (<[q := rest]> (lqueues w)) w)).
Proof.
  intros Ht Hq Hpc Hitems Hquiet.
  rewrite (poll_head_eq env lg w t q record rest) by done.
  by rewrite fan_trace_quiet.
Qed.

Lemma async_round_head_quiet env lg w t q record rest :
  async_queue lg = Some q →
  tasks w !! t = Some Scheduled → aqueues w !! q = Some (record :: rest) →
  quiet env w (handlers_of (lg, w)) →
  __async_enqueueHandler_round env t (lg, w)
  = Some (lg, with_calls (calls w ++ deliveries (handlers_of (lg, w)) record)
                (with_aqueues (<[q := rest]> (aqueues w)) w)).
Proof.
  intros Hq Hpc Hitems Hquiet.
  rewrite (async_round_head_eq env lg w t q record rest) by done.
  by rewrite fan_trace_quiet.
Qed.


(** In the sample environment only handler 9 raises. *)
Lemma sample_quiet w hs : 9 ∉ hs → quiet Sample.env0 w hs.
Proof.
  intros Hnot h Hh record. simpl. destruct (decide (h = 9)) as [->|]; done.
Qed.

Ltac sample_quiet :=
  apply sample_quiet; intros Hnine; apply list_elem_of_In in Hnine;
  vm_compute in Hnine; intuition discriminate.


(** ** Handler management *)

Lemma removeHandler_unknown_name lg w s :
  (∀ hd, hd ∈ handlers_of (lg, w) → hd_name (heap w hd) ≠ s) →
  removeHandler (VStr s) (lg, w) = (Raise (does_not_exist s), (lg, w)).
Proof.
  intros Hno. unfold removeHandler. unfold_m. cbn [fst snd].
  destruct (list_find _ _) as [[i hd]|] eqn:Hfind; [| done].
  apply list_find_Some in Hfind as (Hi & Hname & _).
  exfalso. apply (Hno hd); [| done]. by eapply list_elem_of_lookup_2.
Qed.

Lemma removeHandler_bad_type lg w v :
  handler_int_or_str v = false →
  ∃ msg, removeHandler v (lg, w) = (Raise (TypeError msg), (lg, w)).
Proof.
  intros Hv. destruct v; try discriminate; eexists; reflexivity.
Qed.

(** C6: [removeHandler] with a name that no handler of the set carries
    raises the not-found [ValueError], and [removeHandler] with a selector
    that is neither a [Handler] nor an [int] nor a [str] raises a
    [TypeError]; in both cases the logger (cached count included), the
    handler list and the rest of the store are exactly as before the
    call, so a count that agreed with the list still does. *)
Theorem removeHandler_errors_keep_set lg w :
  (∀ s, (∀ hd, hd ∈ handlers_of (lg, w) → hd_name (heap w hd) ≠ s) →
        removeHandler (VStr s) (lg, w) = (Raise (does_not_exist s), (lg, w))) ∧
  (∀ v, handler_int_or_str v = false →
        ∃ msg, removeHandler v (lg, w) = (Raise (TypeError msg), (lg, w))) ∧
  (∀ v, (∃ s, v = VStr s ∧ ∀ hd, hd ∈ handlers_of (lg, w) → hd_name (heap w hd) ≠ s) ∨
        handler_int_or_str v = false →
        handlers_of (removeHandler v (lg, w)).2 = handlers_of (lg, w) ∧
        handlers_num (removeHandler v (lg, w)).2.1 = handlers_num lg ∧
        (count_ok (lg, w) → count_ok (removeHandler v (lg, w)).2)).
Proof.
  split; [| split].
  - intros s. apply removeHandler_unknown_name.
  - intros v. apply removeHandler_bad_type.
  - intros v [(s & -> & Hno) | Hv].
    + by rewrite removeHandler_unknown_name.
    + destruct (removeHandler_bad_type lg w v Hv) as [msg ->]. done.
Qed.

Lemma removeHandler_errors_keep_set_witness :
  removeHandler (VStr "syslog") (Sample.sync [0; 1])
  = (Raise (does_not_exist "syslog"), Sample.sync [0; 1]) ∧
  ∃ msg, removeHandler (VFloat 0) (Sample.sync [0; 1])
         = (Raise (TypeError msg), Sample.sync [0; 1]).
Proof.
  destruct (removeHandler_errors_keep_set (Sample.plain [0; 1]) (Sample.world_of [0; 1]))
    as (Hname & Htype & _).
  split.
  - apply Hname. intros hd Hhd. simpl. unfold Sample.heap0.
    destruct (decide (hd = 0)); discriminate.
  - apply Htype. reflexivity.
Defined.

(** ** The cached count *)

Lemma addHandler_eq h lg w :
  addHandler h (lg, w)
  = (Ok tt, after_removal (handlers_of (lg, w) ++ [h]) (lg, w)).
Proof.
  unfold addHandler, recount, after_removal. unfold_m. unfold handlers_of.
  cbn [fst snd lists with_lists]. by rewrite fn_lookup_insert.
Qed.

Lemma after_removal_count_ok l s : count_ok (after_removal l s).
Proof.
  unfold count_ok, after_removal, handlers_of. cbn [fst snd lists with_lists
    handlers handlers_num with_handlers_num]. by rewrite fn_lookup_insert.
Qed.

Lemma after_removal_handlers l s : handlers_of (after_removal l s) = l.
Proof.
  unfold after_removal, handlers_of. cbn [fst snd lists with_lists handlers
    with_handlers_num]. by rewrite fn_lookup_insert.
Qed.

(** What [removeHandler] does, by the kind of its selector. *)
Lemma removeHandler_cases v lg w :
  removeHandler v (lg, w)
  = match v with
    | VHandler h =>
        match py_remove h (handlers_of (lg, w)) with
        | Some l => (Ok tt, after_removal l (lg, w))
        | None => (Raise (ValueError "list.remove(x): x not in list"), (lg, w))
        end
    | VInt _ | VBool _ =>
        match as_int v ≫= py_index (length (handlers_of (lg, w))) with
        | Some k => (Ok tt, after_removal (delete k (handlers_of (lg, w))) (lg, w))
        | None => (Raise (IndexError "list assignment index out of range"), (lg, w))
        end
    | VStr s =>
        match list_find (λ hd, hd_name (heap w hd) = s) (handlers_of (lg, w)) with
        | Some (_, hd) =>
            match py_remove hd (handlers_of (lg, w)) with
            | Some l => (Ok tt, after_removal l (lg, w))
            | None => (Raise (ValueError "list.remove(x): x not in list"), (lg, w))
            end
        | None => (Raise (does_not_exist s), (lg, w))
        end
    | _ => (Raise (TypeError ("Arg " +:+ dq +:+ "handler" +:+ dq +:+
                              " must be a Handler|int|str object, not " +:+ type_repr v)),
            (lg, w))
    end.
Proof.
  unfold removeHandler, recount, after_removal. unfold_m. unfold handlers_of.
  cbn [fst snd].
  destruct v as [h|z|b|s| | |]; try reflexivity.
  - destruct (py_remove h _); [| done].
    cbn [fst snd lists with_lists]. by rewrite fn_lookup_insert.
  - destruct (option_bind _ _ _ _); [| done].
    cbn [fst snd lists with_lists]. by rewrite fn_lookup_insert.
  - destruct (option_bind _ _ _ _); [| done].
    cbn [fst snd lists with_lists]. by rewrite fn_lookup_insert.
  - destruct (list_find _ _) as [[i hd]|]; [| done].
    destruct (py_remove hd _); [| done].
    cbn [fst snd lists with_lists]. by rewrite fn_lookup_insert.
Qed.

(** What [setLevelThreshold] does, by what its selector selects. *)
Lemma setLevelThreshold_cases handler new_threshold lg w :
  setLevelThreshold handler new_threshold (lg, w)
  = match selected (lg, w) handler with
    | Some hd =>
        (Ok tt,
         (with_handlers_num (length (handlers_of (lg, w))) lg,
          with_heap (<[hd := mkHandler (hd_name (heap w hd)) (as_level new_threshold)]>
                       (heap w)) w))
    | None => (Raise (no_selection_error handler), (lg, w))
    end.
Proof.
  unfold setLevelThreshold, selected, recount, as_level. unfold_m. unfold handlers_of.
  cbn [fst snd].
  destruct handler as [h|z|b|s| | |]; try reflexivity.
  - destruct (option_bind Z nat _ _) as [k|]; [| done]. simpl.
    by destruct (lists w (handlers lg) !! k).
  - destruct (option_bind Z nat _ _) as [k|]; [| done]. simpl.
    by destruct (lists w (handlers lg) !! k).
  - by destruct (list_find _ _) as [[i hd]|].
Qed.





(** *** Construction, branch by branch *)

Lemma arg_world_handlers hs w :
  lists (arg_world hs w) (arg_list hs w) = arg_handlers hs w.
Proof.
  destruct hs as [l|h]; [done |]. simpl. by rewrite fn_lookup_insert.
Qed.

Lemma init_both_eq name hs only_handler w :
  __init__ name hs true true only_handler (blank, w)
  = (Raise both_modes,
     (plain_attrs name hs w true true only_handler, plain_world hs w)).
Proof.
  destruct hs as [l|h]; [reflexivity |].
  unfold __init__, new_list, uuid4, setattr, init_world. unfold_m. cbn.
  unfold plain_attrs. cbn. by rewrite fn_lookup_insert.
Qed.

Lemma init_enqueue_eq name hs only_handler w :
  __init__ name hs true false only_handler (blank, w)
  = (Ok tt,
     (<[A_log_thread := Some (ARef (length (threads w)))]>
        (<[A_queue := Some (ARef (length (lqueues w)))]>
           (plain_attrs name hs w true false only_handler)),
      with_threads (threads w ++ [AtGet])
        (with_lqueues (lqueues w ++ [[]]) (plain_world hs w)))).
Proof.
  destruct hs as [l|h]; [reflexivity |].
  unfold __init__, new_list, uuid4, new_LogQueue, start_Thread, setattr, init_world.
  unfold_m. cbn. unfold plain_attrs. cbn. by rewrite fn_lookup_insert.
Qed.

Lemma init_sync_eq name hs only_handler w :
  __init__ name hs false false only_handler (blank, w)
  = (Ok tt, (plain_attrs name hs w false false only_handler, plain_world hs w)).
Proof.
  destruct hs as [l|h]; [reflexivity |].
  unfold __init__, new_list, uuid4, setattr, init_world. unfold_m. cbn.
  unfold plain_attrs. cbn. by rewrite fn_lookup_insert.
Qed.

Lemma init_async_no_loop_eq name hs only_handler w :
  running_loop w = None →
  __init__ name hs false true only_handler (blank, w)
  = (Raise no_loop,
     (<[A_async_queue := Some (ARef (length (aqueues w)))]>
        (plain_attrs name hs w false true only_handler),
      with_aqueues (aqueues w ++ [[]]) (plain_world hs w))).
Proof.
  intros Hloop. unfold __init__, try_except_RuntimeError, get_running_loop,
    new_asyncio_Queue, new_list, uuid4, setattr, init_world.
  unfold_m. destruct hs as [l|h]; cbn; rewrite Hloop; [reflexivity |].
  unfold plain_attrs. cbn. by rewrite fn_lookup_insert.
Qed.

Lemma init_async_loop_eq name hs only_handler w l :
  running_loop w = Some l →
  __init__ name hs false true only_handler (blank, w)
  = (Ok tt,
     (<[A_log_task := Some (ARef (length (tasks w)))]>
        (<[A_loop := Some (ARef l)]>
           (<[A_async_queue := Some (ARef (length (aqueues w)))]>
              (plain_attrs name hs w false true only_handler))),
      with_tasks (tasks w ++ [Scheduled])
        (with_aqueues (aqueues w ++ [[]]) (plain_world hs w)))).
Proof.
  intros Hloop. unfold __init__, try_except_RuntimeError, get_running_loop,
    new_asyncio_Queue, new_list, uuid4, setattr, init_world.
  unfold_m. destruct hs as [l'|h]; cbn; rewrite Hloop; [reflexivity |].
  unfold plain_attrs. cbn. by rewrite fn_lookup_insert.
Qed.

Lemma new_Logger_sync_eq name hs only_handler w :
  new_Logger name hs false false only_handler w
  = (Ok (logger_with name hs w false false only_handler None None None None None),
     (plain_attrs name hs w false false only_handler, plain_world hs w)).
Proof. unfold new_Logger. by rewrite init_sync_eq. Qed.

Lemma new_Logger_enqueue_eq name hs only_handler w :
  new_Logger name hs true false only_handler w
  = (Ok (logger_with name hs w true false only_handler
           (Some (length (lqueues w))) (Some (length (threads w))) None None None),
     (<[A_log_thread := Some (ARef (length (threads w)))]>
        (<[A_queue := Some (ARef (length (lqueues w)))]>
           (plain_attrs name hs w true false only_handler)),
      with_threads (threads w ++ [AtGet])
        (with_lqueues (lqueues w ++ [[]]) (plain_world hs w)))).
Proof. unfold new_Logger. by rewrite init_enqueue_eq. Qed.

Lemma new_Logger_async_eq name hs only_handler w l :
  running_loop w = Some l →
  new_Logger name hs false true only_handler w
  = (Ok (logger_with name hs w false true only_handler None None
           (Some (length (aqueues w))) (Some l) (Some (length (tasks w)))),
     (<[A_log_task := Some (ARef (length (tasks w)))]>
        (<[A_loop := Some (ARef l)]>
           (<[A_async_queue := Some (ARef (length (aqueues w)))]>
              (plain_attrs name hs w false true only_handler))),
      with_tasks (tasks w ++ [Scheduled])
        (with_aqueues (aqueues w ++ [[]]) (plain_world hs w)))).
Proof.
  intros Hloop. unfold new_Logger. by rewrite (init_async_loop_eq _ _ _ _ _ Hloop).
Qed.

Lemma plain_world_handlers hs w :
  lists (plain_world hs w) (arg_list hs w) = arg_handlers hs w.
Proof. apply arg_world_handlers. Qed.





(** ** Thresholds *)

Lemma setLevelThreshold_selected lg w handler new_threshold hd :
  selected (lg, w) handler = Some hd →
  setLevelThreshold handler new_threshold (lg, w)
  = (Ok tt,
     (with_handlers_num (length (handlers_of (lg, w))) lg,
      with_heap (<[hd := mkHandler (hd_name (heap w hd)) (as_level new_threshold)]>
                   (heap w)) w)).
Proof. intros Hsel. by rewrite setLevelThreshold_cases, Hsel. Qed.

(** C9: [setLevelThreshold] called with a raw number [n] (an [int] or a
    [float]) and a selector that selects a handler returns normally, and
    afterwards the threshold of the selected handler object is the level
    [LogLevel("CUSTOM", n)]: its name is "CUSTOM" and its numeric severity
    is [n]; the handler keeps its name and no other handler object
    changes. *)
Theorem setLevelThreshold_wraps_number lg w handler n hd :
  selected (lg, w) handler = Some hd →
  ∃ lg' w',
    setLevelThreshold handler (ThNum n) (lg, w) = (Ok tt, (lg', w')) ∧
    hd_level (heap w' hd) = mkLogLevel "CUSTOM" n ∧
    level_name (hd_level (heap w' hd)) = "CUSTOM" ∧
    level_value (hd_level (heap w' hd)) = n ∧
    hd_name (heap w' hd) = hd_name (heap w hd) ∧
    ∀ other, other ≠ hd → heap w' other = heap w other.
Proof.
  intros Hsel. eexists _, _.
  rewrite (setLevelThreshold_selected _ _ _ _ hd Hsel).
  split; [reflexivity |]. unfold with_heap. cbn [heap]. rewrite fn_lookup_insert.
  repeat split. intros other Hne. by rewrite fn_lookup_insert_ne.
Qed.

Lemma setLevelThreshold_wraps_number_witness :
  ∃ lg' w',
    setLevelThreshold (VStr "file") (ThNum (PyFloat 4612811918334230528))
      (Sample.sync [0; 1; 2]) = (Ok tt, (lg', w')) ∧
    hd_level (heap w' 1) = mkLogLevel "CUSTOM" (PyFloat 4612811918334230528).
Proof.
  destruct (setLevelThreshold_wraps_number (Sample.plain [0; 1; 2])
              (Sample.world_of [0; 1; 2])
              (VStr "file") (PyFloat 4612811918334230528) 1)
    as (lg' & w' & H1 & H2 & _); [reflexivity |].
  by exists lg', w'.
Defined.

(** ** [exception] *)

Lemma exception_eq env message is_fatal lg w :
  exception env message is_fatal (lg, w)
  = log env (LvObj (exception_level env is_fatal))
      (MsgStr (exception_text env w message)) (lg, w).
Proof.
  unfold exception, log, exception_level, exception_text.
  unfold mbind, M_bind, bind, world_, gets. cbn [snd]. by destruct is_fatal.
Qed.

(** C8: [exception(message, is_fatal)] is one log call whose level is
    FATAL when [is_fatal] holds and ERROR otherwise, and whose message is
    [message], a line break, then the text extracted from the exception
    context.  On a logger whose cached count is not 0 the records go out
    at that level with that text in each mode: in synchronous mode one
    per handler called, which are all handlers, with a normal return,
    unless a handler raises; one queued record and a normal return in
    the two queued modes.  Nothing here depends on an exception being
    active: with [exc_info] empty the same holds. *)
Theorem exception_logs_at_chosen_level env lg w message is_fatal :
  handlers_num lg ≠ 0 →
  let level := exception_level env is_fatal in
  let text := exception_text env w message in
  let record := record_at env lg (LvObj level) (MsgStr text) in
  level = (if is_fatal then Level_FATAL env else Level_ERROR env) ∧
  text = message +:+ newline +:+ ExtractException env (exc_info w) ∧
  (∀ n, r_level (record n) = level ∧ r_levelName (record n) = level_name level ∧
        r_message (record n) = MsgStr text) ∧
  exception env message is_fatal (lg, w) = log env (LvObj level) (MsgStr text) (lg, w) ∧
  (synchronous lg →
     ∃ k r w', exception env message is_fatal (lg, w) = (r, (lg, w')) ∧
               k ≤ length (handlers_of (lg, w)) ∧
               calls w' = calls w ++ zip (handlers_of (lg, w)) (record <$> seq (made w) k) ∧
               (r = Ok tt → k = length (handlers_of (lg, w))) ∧
               (quiet env w (handlers_of (lg, w)) →
                  r = Ok tt ∧
                  calls w' = calls w ++ zip (handlers_of (lg, w))
                               (record <$> seq (made w) (length (handlers_of (lg, w)))))) ∧
  (∀ q items, enqueue lg = true → queue lg = Some q → lqueues w !! q = Some items →
     ∃ w', exception env message is_fatal (lg, w) = (Ok tt, (lg, w')) ∧
           lqueues w' !! q = Some (items ++ [record (made w)])) ∧
  (∀ q items, enqueue lg = false → is_async lg = true → async_queue lg = Some q →
     aqueues w !! q = Some items →
     ∃ w', exception env message is_fatal (lg, w) = (Ok tt, (lg, w')) ∧
           aqueues w' !! q = Some (items ++ [record (made w)])).
Proof.
  intros Hn level text record.
  split; [reflexivity |]. split; [reflexivity |]. split; [done |].
  split; [apply exception_eq |]. rewrite exception_eq. unfold log.
  fold level. fold text. split; [| split].
  - intros Hs. rewrite log_sync_eq by done. unfold sync_trace. fold record.
    set (tr := loop_trace env (heap w) record (made w) (handlers_of (lg, w))).
    destruct (loop_trace_length env (heap w) record (handlers_of (lg, w)) (made w))
      as (Hle & Hfull & _). fold tr in Hle, Hfull.
    exists (length tr.1), (ending tr.2),
      (with_calls (calls w ++ tr.1) (with_made (made w + length tr.1) w)).
    split; [reflexivity |]. split; [exact Hle |]. split.
    { cbn [calls with_calls]. f_equal. apply loop_trace_zip. }
    split.
    { intros Hr. apply Hfull. destruct tr.2; [discriminate | done]. }
    intros Hq. subst tr. rewrite loop_trace_quiet by done. done.
  - intros q items He Hq Hitems. eexists.
    rewrite (log_enqueue_eq _ _ _ _ _ q) by done.
    split; [reflexivity |]. simpl. by rewrite list_lookup_alter_eq, Hitems.
  - intros q items He Ha Hq Hitems. eexists.
    rewrite (log_async_eq _ _ _ _ _ q) by done.
    split; [reflexivity |]. simpl. by rewrite list_lookup_alter_eq, Hitems.
Qed.

Lemma exception_logs_at_chosen_level_witness :
  ∃ w', exception Sample.env0 "load failed" true (Sample.sync [0])
        = (Ok tt, (Sample.plain [0], w')) ∧
        (λ c, (c.1, r_levelName c.2, r_message c.2)) <$> calls w'
        = [(0, "FATAL", MsgStr ("load failed" +:+ newline))].
Proof.
  destruct (exception_logs_at_chosen_level Sample.env0 (Sample.plain [0])
              (Sample.world_of [0]) "load failed" true)
    as (_ & _ & _ & _ & Hsync & _); [discriminate |].
  destruct Hsync as (k & r & w' & Hrun & _ & _ & _ & Hquiet); [by split |].
  destruct Hquiet as [-> Hcalls]; [sample_quiet |].
  exists w'. split; [exact Hrun |]. rewrite Hcalls. reflexivity.
Defined.

(** ** Construction with conflicting or unusable modes *)

(** C2 (counterexample): construction with [enqueue] and [is_async] both
    set raises the configuration error, yet the object already carries
    its name. *)
Lemma both_modes_fields_assigned :
  (new_Logger "app" (HList 0) true true false (Sample.world_of [0])).1
  = Raise both_modes ∧
  (new_Logger "app" (HList 0) true true false (Sample.world_of [0])).2.1 A_name
  = Some (AStr "app") ∧
  ¬ fails_untouched "app" (HList 0) false (Sample.world_of [0]).
Proof.
  split; [reflexivity |]. split; [reflexivity |].
  intros [e He]. unfold new_Logger in He. rewrite init_both_eq in He.
  injection He as _ Hi _.
  pose proof (f_equal (λ i : Instance, i A_name) Hi) as Hname.
  discriminate Hname.
Qed.

(** C2 (amended): construction with [enqueue] and [is_async] both set
    always raises the configuration error and returns no logger.  When it
    raises, the seven plain attributes ([name], [handlers],
    [handlers_num], [enqueue], [is_async], [uuid], [only_handler]) have
    been assigned on the object and one uuid has been drawn; no queue was
    allocated, no thread started, no task created, and none of the five
    resource attributes exists. *)
Theorem both_modes_rejected_before_resources name hs only_handler w :
  ∃ i w',
    new_Logger name hs true true only_handler w = (Raise both_modes, (i, w')) ∧
    i = plain_attrs name hs w true true only_handler ∧
    i A_name = Some (AStr name) ∧
    i A_handlers = Some (ARef (arg_list hs w)) ∧
    i A_handlers_num = Some (ANat (length (arg_handlers hs w))) ∧
    i A_enqueue = Some (ABool true) ∧
    i A_is_async = Some (ABool true) ∧
    i A_uuid = Some (ANat (entropy w (uuids w))) ∧
    i A_only_handler = Some (ABool only_handler) ∧
    i A_queue = None ∧ i A_log_thread = None ∧ i A_async_queue = None ∧
    i A_loop = None ∧ i A_log_task = None ∧
    w' = plain_world hs w ∧
    uuids w' = S (uuids w) ∧
    lqueues w' = lqueues w ∧ aqueues w' = aqueues w ∧
    threads w' = threads w ∧ tasks w' = tasks w.
Proof.
  eexists _, _. unfold new_Logger. rewrite init_both_eq.
  split; [reflexivity |]. destruct hs; repeat split.
Qed.

(** C10: construction of a loop-backed logger ([is_async] set, [enqueue]
    not set) while no event loop is running always raises the environment
    error.  No logger is returned, so none in synchronous mode either, and
    no task has been created and no thread started. *)
Theorem async_without_loop_rejected name hs only_handler w :
  running_loop w = None →
  (new_Logger name hs false true only_handler w).1 = Raise no_loop ∧
  (∀ lg s, new_Logger name hs false true only_handler w ≠ (Ok lg, s)) ∧
  tasks (new_Logger name hs false true only_handler w).2.2 = tasks w ∧
  threads (new_Logger name hs false true only_handler w).2.2 = threads w.
Proof.
  intros Hloop. unfold new_Logger.
  rewrite (init_async_no_loop_eq _ _ _ _ Hloop). destruct hs; repeat split; done.
Qed.

Lemma async_without_loop_rejected_witness :
  (new_Logger "app" (HOne 0) false true false Sample.world0).1 = Raise no_loop.
Proof.
  destruct (async_without_loop_rejected "app" (HOne 0) false Sample.world0)
    as (H & _); [reflexivity |].
  exact H.
Defined.

(** ** The worker thread and [close] *)

Lemma all_deliveries_app hs rs1 rs2 :
  all_deliveries hs (rs1 ++ rs2) = all_deliveries hs rs1 ++ all_deliveries hs rs2.
Proof. unfold all_deliveries. by rewrite fmap_app, join_app. Qed.

Lemma all_deliveries_cons hs r rs :
  all_deliveries hs (r :: rs) = deliveries hs r ++ all_deliveries hs rs.
Proof. reflexivity. Qed.

Lemma run_app env evs1 evs2 s :
  run env (evs1 ++ evs2) s = run env evs1 s ≫= run env evs2.
Proof.
  revert s. induction evs1 as [|ev evs1 IH]; intros s; [done |].
  simpl. destruct (step env ev s) as [s'|]; simpl; [apply IH | done].
Qed.

(** The exception that ends a loop was raised by a handler of the list. *)
Lemma loop_trace_cause env objects mk hs : ∀ n e,
  (loop_trace env objects mk n hs).2 = Some e →
  ∃ h record, h ∈ hs ∧ handle_outcome env h (objects h) record = Some e.
Proof.
  induction hs as [|h hs IH]; intros n e; [discriminate |].
  cbn [loop_trace]. destruct (handle_outcome _ _ _ _) as [e'|] eqn:Hout.
  - intros [= ->]. exists h, (mk n). split; [apply list_elem_of_here | done].
  - simpl. intros He. destruct (IH (S n) e He) as (h' & r & Hin & Hout').
    exists h', r. split; [by apply list_elem_of_further | done].
Qed.

Section Worker.

Context (env : Env) (lg : Logger) (q t : nat).
Hypothesis Henqueue : enqueue lg = true.
Hypothesis Hqueue : queue lg = Some q.
Hypothesis Hthread : log_thread lg = Some t.

Lemma step_log_eq level message w :
  step env (EvLog level message) (lg, w)
  = Some (lg, if decide (handlers_num lg = 0) then w
              else with_lqueues
                     (alter (λ items, items ++ [record_at env lg level message (made w)])
                        q (lqueues w))
                     (with_made (S (made w)) w)).
Proof.
  unfold step, log. destruct (decide (handlers_num lg = 0)) as [Hz|Hz].
  - by rewrite log_empty_eq.
  - by rewrite (log_enqueue_eq _ _ _ _ _ q).
Qed.

Lemma step_poll_inv w s :
  step env EvPoll (lg, w) = Some s →
  threads w !! t = Some AtGet ∧
  ((∃ record rest,
      lqueues w !! q = Some (record :: rest) ∧
      s = worker_try t (ending (fan_trace env lg w record).2)
            (lg, with_calls (calls w ++ (fan_trace env lg w record).1)
                   (with_lqueues (<[q := rest]> (lqueues w)) w))) ∨
   (lqueues w !! q = Some [] ∧ s = set_pc t AtCheck (lg, w))).
Proof.
  intros Hstep.
  assert (Hpc : threads w !! t = Some AtGet).
  { revert Hstep. unfold step, __enqueueHandler_get. cbn [fst snd].
    rewrite Hthread, Hqueue. by destruct (threads w !! t) as [[]|]. }
  split; [exact Hpc |].
  destruct (lqueues w !! q) as [[|record rest]|] eqn:Hitems.
  - right. split; [done |]. revert Hstep. unfold step, __enqueueHandler_get.
    cbn [fst snd]. rewrite Hthread, Hqueue, Hpc, Hitems. by intros [= <-].
  - left. exists record, rest. split; [done |].
    rewrite (poll_head_eq env lg w t q record rest) in Hstep by done.
    by injection Hstep as <-.
  - revert Hstep. unfold step, __enqueueHandler_get. cbn [fst snd].
    by rewrite Hthread, Hqueue, Hpc, Hitems.
Qed.

(** A poll, by what it does to the worker: it stays in the loop, it
    enters the [except] clause, or it ends by the exception of a
    handler.  In every case the only other changes are the handle calls
    and the item taken from the queue. *)
Lemma step_poll_cases w s :
  step env EvPoll (lg, w) = Some s →
  threads w !! t = Some AtGet ∧
  ∃ w1, s.1 = lg ∧ heap w1 = heap w ∧ lists w1 = lists w ∧
        main_alive w1 = main_alive w ∧ threads w1 = threads w ∧
        (s = (lg, w1) ∨ s = set_pc t AtCheck (lg, w1) ∨
         ∃ e h record, s = set_pc t (Crashed e) (lg, w1) ∧
                       h ∈ handlers_of (lg, w) ∧
                       handle_outcome env h (heap w h) record = Some e).
Proof.
  intros Hstep. apply step_poll_inv in Hstep
    as (Hpc & [(record & rest & Hhead & ->) | (Hempty & ->)]).
  - split; [exact Hpc |].
    exists (with_calls (calls w ++ (fan_trace env lg w record).1)
              (with_lqueues (<[q := rest]> (lqueues w)) w)).
    split; [apply worker_try_frame |]. repeat (split; [reflexivity |]).
    destruct (worker_try_cases t (ending (fan_trace env lg w record).2)
                (lg, with_calls (calls w ++ (fan_trace env lg w record).1)
                       (with_lqueues (<[q := rest]> (lqueues w)) w)))
      as [-> | [-> | (e & Hr & ->)]]; [by left | right; by left |].
    right. right.
    destruct (fan_trace env lg w record).2 as [e'|] eqn:Htr; [| discriminate].
    injection Hr as ->.
    destruct (loop_trace_cause env (heap w) (λ _, record) (handlers_of (lg, w)) 0 e Htr)
      as (h & r & Hin & Hout).
    by exists e, h, r.
  - split; [exact Hpc |]. exists w. repeat (split; [reflexivity |]). right. by left.
Qed.

Lemma step_check_inv w s :
  step env EvCheck (lg, w) = Some s →
  threads w !! t = Some AtCheck ∧
  s = set_pc t (if main_alive w then AtGet else Finished) (lg, w).
Proof.
  unfold step, __enqueueHandler_except. cbn [fst snd]. rewrite Hthread.
  destruct (threads w !! t) as [[]|]; try discriminate.
  by intros [= <-].
Qed.

(** No step of the system replaces the logger, a handler object or a
    handler list. *)
Lemma step_frame ev w s :
  step env ev (lg, w) = Some s →
  s.1 = lg ∧ heap s.2 = heap w ∧ lists s.2 = lists w.
Proof.
  destruct ev as [level message | | |].
  - rewrite step_log_eq. intros [= <-]. by destruct (decide (handlers_num lg = 0)).
  - intros Hstep. apply step_poll_cases in Hstep
      as (_ & w1 & Hlg & Hheap & Hlists & _ & _ & Hs).
    destruct Hs as [-> | [-> | (e & h & record & -> & _)]]; done.
  - intros Hstep. by apply step_check_inv in Hstep as (_ & ->).
  - by intros [= <-].
Qed.

Lemma run_frame evs : ∀ w s,
  run env evs (lg, w) = Some s →
  s.1 = lg ∧ heap s.2 = heap w ∧ lists s.2 = lists w.
Proof.
  induction evs as [|ev evs IH]; intros w s Hrun.
  - by injection Hrun as <-.
  - cbn [run] in Hrun.
    destruct (step env ev (lg, w)) as [[lg1 w1]|] eqn:Hstep; [| discriminate].
    simpl in Hrun. apply step_frame in Hstep as (Hlg & Hheap & Hlists).
    cbn [fst snd] in *. subst lg1.
    destruct (IH _ _ Hrun) as (H1 & H2 & H3). by rewrite H2, H3.
Qed.


(** The worker has returned only if the main thread is gone. *)
Lemma run_finished evs : ∀ w s,
  (threads w !! t = Some Finished → main_alive w = false) →
  run env evs (lg, w) = Some s →
  threads s.2 !! t = Some Finished → main_alive s.2 = false.
Proof.
  induction evs as [|ev evs IH]; intros w s Hinv Hrun.
  - by injection Hrun as <-.
  - cbn [run] in Hrun.
    destruct (step env ev (lg, w)) as [s1|] eqn:Hstep; [| discriminate].
    simpl in Hrun. destruct ev as [level message | | |].
    + rewrite step_log_eq in Hstep. injection Hstep as <-.
      eapply IH; [| exact Hrun]. by destruct (decide (handlers_num lg = 0)).
    + apply step_poll_cases in Hstep
        as (Hpc & w1 & _ & _ & _ & Hmain & Hthreads & Hs).
      assert (Hlt : t < length (threads w1))
        by (rewrite Hthreads; by eapply lookup_lt_Some).
      destruct Hs as [-> | [-> | (e & h & record & -> & _)]].
      * eapply IH; [| exact Hrun]. cbn [snd]. rewrite Hthreads, Hpc. discriminate.
      * eapply IH; [| exact Hrun]. simpl.
        rewrite list_lookup_insert_eq by done. discriminate.
      * eapply IH; [| exact Hrun]. simpl.
        rewrite list_lookup_insert_eq by done. discriminate.
    + apply step_check_inv in Hstep as (Hpc & ->).
      eapply IH; [| exact Hrun]. simpl.
      rewrite list_lookup_insert_eq by (by eapply lookup_lt_Some).
      by destruct (main_alive w).
    + injection Hstep as <-. eapply IH; [| exact Hrun]. done.
Qed.

(** A worker that has ended stays as it ended. *)
Lemma run_stuck evs : ∀ w s pc,
  threads w !! t = Some pc → ended pc →
  run env evs (lg, w) = Some s →
  threads s.2 !! t = Some pc.
Proof.
  induction evs as [|ev evs IH]; intros w s pc Hpc Hend Hrun.
  - by injection Hrun as <-.
  - cbn [run] in Hrun.
    destruct (step env ev (lg, w)) as [s1|] eqn:Hstep; [| discriminate].
    simpl in Hrun. destruct ev as [level message | | |].
    + rewrite step_log_eq in Hstep. injection Hstep as <-.
      destruct (decide (handlers_num lg = 0));
        match type of Hrun with run _ _ (_, ?w1) = _ =>
          exact (IH w1 _ pc Hpc Hend Hrun) end.
    + apply step_poll_inv in Hstep as (Hpc' & _).
      rewrite Hpc in Hpc'. injection Hpc' as ->. destruct Hend as [|[e ?]]; discriminate.
    + apply step_check_inv in Hstep as (Hpc' & _).
      rewrite Hpc in Hpc'. injection Hpc' as ->. destruct Hend as [|[e ?]]; discriminate.
    + injection Hstep as <-.
      match type of Hrun with run _ _ (_, ?w1) = _ =>
        exact (IH w1 _ pc Hpc Hend Hrun) end.
Qed.

(** The worker has ended by an exception only if a handler of the list
    raised it. *)
Lemma run_crashed evs : ∀ w s e,
  (∀ e', threads w !! t ≠ Some (Crashed e')) →
  run env evs (lg, w) = Some s →
  threads s.2 !! t = Some (Crashed e) →
  ∃ h record, h ∈ handlers_of (lg, w) ∧ handle_outcome env h (heap w h) record = Some e.
Proof.
  induction evs as [|ev evs IH]; intros w s e Hinv Hrun Hcr.
  - injection Hrun as <-. by destruct (Hinv e).
  - cbn [run] in Hrun.
    destruct (step env ev (lg, w)) as [s1|] eqn:Hstep; [| discriminate].
    simpl in Hrun. destruct ev as [level message | | |].
    + rewrite step_log_eq in Hstep. injection Hstep as <-.
      destruct (decide (handlers_num lg = 0));
        match type of Hrun with run _ _ (_, ?w1) = _ =>
          exact (IH w1 _ _ Hinv Hrun Hcr) end.
    + apply step_poll_cases in Hstep
        as (Hpc & w1 & _ & Hheap & Hlists & _ & Hthreads & Hs).
      assert (Hlt : t < length (threads w1))
        by (rewrite Hthreads; by eapply lookup_lt_Some).
      assert (Hsame : ∀ h record,
                h ∈ handlers_of (lg, w1) ∧ handle_outcome env h (heap w1 h) record = Some e →
                h ∈ handlers_of (lg, w) ∧ handle_outcome env h (heap w h) record = Some e).
      { intros h record. unfold handlers_of. cbn [fst snd]. by rewrite Hheap, Hlists. }
      destruct Hs as [-> | [-> | (e1 & h & record & -> & Hin & Hout)]].
      * destruct (IH w1 s e) as (h & record & Hc); [| exact Hrun | exact Hcr |].
        -- intros e'. rewrite Hthreads, Hpc. discriminate.
        -- exists h, record. by apply Hsame.
      * unfold set_pc in Hrun. cbn [fst snd] in Hrun.
        match type of Hrun with run _ _ (_, ?w2) = _ =>
          destruct (IH w2 s e) as (h & record & Hc); [| exact Hrun | exact Hcr |] end.
        -- intros e'. simpl. rewrite list_lookup_insert_eq by done. discriminate.
        -- exists h, record. by apply Hsame.
      * unfold set_pc in Hrun. cbn [fst snd] in Hrun.
        assert (Hc : threads s.2 !! t = Some (Crashed e1)).
        { eapply (run_stuck evs _ s (Crashed e1)); [| right; by exists e1 | exact Hrun].
          simpl. by rewrite list_lookup_insert_eq by done. }
        rewrite Hc in Hcr. injection Hcr as <-. by exists h, record.
    + apply step_check_inv in Hstep as (Hpc & ->).
      unfold set_pc in Hrun. cbn [fst snd] in Hrun.
      match type of Hrun with run _ _ (_, ?w1) = _ =>
          apply (IH w1 s e); [| exact Hrun | exact Hcr] end. intros e'. simpl.
      rewrite list_lookup_insert_eq by (by eapply lookup_lt_Some).
      by destruct (main_alive w).
    + injection Hstep as <-. match type of Hrun with run _ _ (_, ?w1) = _ =>
          exact (IH w1 _ _ Hinv Hrun Hcr) end.
Qed.


Lemma close_inv s r :
  s.1 = lg → close s = Some r →
  r = (Ok tt, s) ∧ ∃ pc, threads s.2 !! t = Some pc ∧ ended pc.
Proof.
  intros Hlg. unfold close, Thread_join. rewrite Hlg, Henqueue, Hthread.
  destruct (threads s.2 !! t) as [[| | |e]|]; try discriminate.
  - intros [= <-]. split; [done |]. exists Finished. split; [done | by left].
  - intros [= <-]. split; [done |]. exists (Crashed e). split; [done |]. right. by exists e.
Qed.


End Worker.




(** ** Further properties of handler management *)

Lemma removeHandler_int_eq lg w v i :
  as_int v = Some i →
  removeHandler v (lg, w)
  = match py_index (length (handlers_of (lg, w))) i with
    | Some k => (Ok tt, after_removal (delete k (handlers_of (lg, w))) (lg, w))
    | None => (Raise index_out_of_range, (lg, w))
    end.
Proof.
  intros Hv. rewrite removeHandler_cases.
  destruct v; try discriminate; simpl in Hv; injection Hv as <-; simpl;
    by destruct (py_index _ _).
Qed.

Lemma py_index_nonneg len (k : nat) :
  k < len → py_index len (Z.of_nat k) = Some k.
Proof.
  intros Hk. unfold py_index. rewrite decide_True by lia. by rewrite Nat2Z.id.
Qed.

Lemma py_index_neg len (k : nat) :
  k < len → py_index len (Z.of_nat k - Z.of_nat len) = Some k.
Proof.
  intros Hk. unfold py_index. rewrite decide_False by lia.
  rewrite decide_True by lia. f_equal. lia.
Qed.

Lemma py_index_out len i :
  (i < - Z.of_nat len ∨ Z.of_nat len ≤ i)%Z → py_index len i = None.
Proof.
  intros Hi. unfold py_index. rewrite decide_False by lia. by rewrite decide_False by lia.
Qed.

(** A removal changes the one list object and nothing else of the store. *)
Lemma after_removal_frame l lg w :
  (after_removal l (lg, w)).1 = with_handlers_num (length l) lg ∧
  (∀ other, other ≠ handlers lg → lists (after_removal l (lg, w)).2 other = lists w other) ∧
  with_lists (lists w) (after_removal l (lg, w)).2 = w.
Proof.
  split; [reflexivity |]. split.
  - intros other Hne. unfold after_removal. cbn [fst snd lists with_lists].
    by rewrite fn_lookup_insert_ne.
  - unfold after_removal, with_lists. cbn. apply World_eta.
Qed.

(** X1: [removeHandler] with an integer selector (an [int] or a [bool])
    that denotes position [k] of the list, counted from the front as [k]
    or from the back as [k - len], returns normally, removes exactly the
    entry at position [k], and sets the cached count to the new length,
    one less than before; nothing else of the logger or the store
    changes. *)
Theorem removeHandler_by_index lg w v i (k : nat) :
  as_int v = Some i →
  k < length (handlers_of (lg, w)) →
  i = Z.of_nat k ∨ i = (Z.of_nat k - Z.of_nat (length (handlers_of (lg, w))))%Z →
  ∃ s',
    removeHandler v (lg, w) = (Ok tt, s') ∧
    s' = after_removal (delete k (handlers_of (lg, w))) (lg, w) ∧
    handlers_of s' = delete k (handlers_of (lg, w)) ∧
    handlers_num s'.1 = length (handlers_of (lg, w)) - 1 ∧
    handlers_num s'.1 = length (handlers_of s') ∧
    s'.1 = with_handlers_num (length (handlers_of (lg, w)) - 1) lg ∧
    (∀ other, other ≠ handlers lg → lists s'.2 other = lists w other) ∧
    with_lists (lists w) s'.2 = w.
Proof.
  intros Hv Hk Hi. eexists. rewrite (removeHandler_int_eq _ _ _ i Hv).
  assert (Hidx : py_index (length (handlers_of (lg, w))) i = Some k)
    by (destruct Hi as [-> | ->]; [by apply py_index_nonneg | by apply py_index_neg]).
  rewrite Hidx. split; [reflexivity |]. split; [reflexivity |].
  assert (Hlen : length (delete k (handlers_of (lg, w))) = length (handlers_of (lg, w)) - 1)
    by (apply length_delete; by apply lookup_lt_is_Some).
  rewrite after_removal_handlers.
  destruct (after_removal_frame (delete k (handlers_of (lg, w))) lg w) as (H1 & H2 & H3).
  split; [reflexivity |]. split; [by rewrite H1 |]. split; [by rewrite H1 |].
  split; [by rewrite H1, Hlen |]. by split.
Qed.

Lemma removeHandler_by_index_witness :
  ∃ s',
    removeHandler (VInt (-1)) (Sample.sync [0; 1; 2]) = (Ok tt, s') ∧
    handlers_of s' = [0; 1] ∧ handlers_num s'.1 = 2.
Proof.
  destruct (removeHandler_by_index (Sample.plain [0; 1; 2]) (Sample.world_of [0; 1; 2])
              (VInt (-1)) (-1) 2)
    as (s' & H1 & _ & H2 & H3 & _); [reflexivity | simpl; lia | by right |].
  by exists s'.
Defined.

(** X2: [removeHandler] with an integer selector outside
    [-len <= i < len] raises [IndexError] and leaves the logger and the
    store as they were; on an empty handler list every integer selector
    does. *)
Theorem removeHandler_index_out_of_range lg w v i :
  as_int v = Some i →
  (i < - Z.of_nat (length (handlers_of (lg, w)))
   ∨ Z.of_nat (length (handlers_of (lg, w))) ≤ i)%Z →
  removeHandler v (lg, w) = (Raise index_out_of_range, (lg, w)).
Proof.
  intros Hv Hi. rewrite (removeHandler_int_eq _ _ _ i Hv).
  by rewrite py_index_out.
Qed.

Lemma removeHandler_index_out_of_range_witness :
  removeHandler (VInt 0) (Sample.sync [])
  = (Raise index_out_of_range, Sample.sync []) ∧
  removeHandler (VBool true) (Sample.sync [0])
  = (Raise index_out_of_range, Sample.sync [0]).
Proof.
  split.
  - apply (removeHandler_index_out_of_range (Sample.plain []) (Sample.world_of [])
             _ 0%Z); [reflexivity | simpl; lia].
  - apply (removeHandler_index_out_of_range (Sample.plain [0]) (Sample.world_of [0])
             _ 1%Z); [reflexivity | simpl; lia].
Defined.

Lemma py_remove_first h l i :
  l !! i = Some h → (∀ j, j < i → l !! j ≠ Some h) →
  py_remove h l = Some (delete i l).
Proof.
  intros Hi Hmin. unfold py_remove.
  destruct (list_find (λ y, y = h) l) as [[i' y]|] eqn:Hfind.
  - apply list_find_Some in Hfind as (Hi' & -> & Hmin').
    destruct (lt_eq_lt_dec i i') as [[Hlt | ->] | Hgt]; [| done |].
    + exfalso. by apply (Hmin' i h Hi Hlt).
    + exfalso. by apply (Hmin i' Hgt).
  - apply list_find_None in Hfind. rewrite Forall_forall in Hfind.
    exfalso. apply (Hfind h); [| done].
    apply list_elem_of_In. by eapply list_elem_of_lookup_2.
Qed.

Lemma py_remove_absent h l : h ∉ l → py_remove h l = None.
Proof.
  intros Hnot. unfold py_remove.
  destruct (list_find (λ y, y = h) l) as [[i' y]|] eqn:Hfind; [| done].
  apply list_find_Some in Hfind as (Hi' & -> & _).
  exfalso. apply Hnot. by eapply list_elem_of_lookup_2.
Qed.

(** X3: [removeHandler] with a [Handler] object removes the first entry
    of the list that is this object and keeps every other entry, later
    entries of the same object included; the cached count follows.  With
    an object that is not in the list it raises the [ValueError] of
    [list.remove] and changes nothing. *)
Theorem removeHandler_by_instance lg w h :
  (∀ i, handlers_of (lg, w) !! i = Some h →
        (∀ j, j < i → handlers_of (lg, w) !! j ≠ Some h) →
        removeHandler (VHandler h) (lg, w)
        = (Ok tt, after_removal (delete i (handlers_of (lg, w))) (lg, w)) ∧
        handlers_of (removeHandler (VHandler h) (lg, w)).2
        = delete i (handlers_of (lg, w)) ∧
        count_ok (removeHandler (VHandler h) (lg, w)).2) ∧
  (h ∉ handlers_of (lg, w) →
     removeHandler (VHandler h) (lg, w) = (Raise not_in_list, (lg, w))).
Proof.
  split.
  - intros i Hi Hmin. rewrite removeHandler_cases.
    rewrite (py_remove_first h _ i Hi Hmin). cbn [snd].
    rewrite after_removal_handlers. split; [done |]. split; [done |].
    apply after_removal_count_ok.
  - intros Hnot. rewrite removeHandler_cases.
    by rewrite (py_remove_absent h _ Hnot).
Qed.

Lemma removeHandler_by_instance_witness :
  (∃ s', removeHandler (VHandler 1) (Sample.sync [0; 1; 2; 1]) = (Ok tt, s') ∧
         handlers_of s' = [0; 2; 1] ∧ handlers_num s'.1 = 3) ∧
  removeHandler (VHandler 5) (Sample.sync [0; 1])
  = (Raise not_in_list, Sample.sync [0; 1]).
Proof.
  destruct (removeHandler_by_instance (Sample.plain [0; 1; 2; 1])
              (Sample.world_of [0; 1; 2; 1]) 1) as [Hin _].
  destruct (removeHandler_by_instance (Sample.plain [0; 1]) (Sample.world_of [0; 1]) 5)
    as [_ Hout].
  split.
  - destruct (Hin 1) as (Hrun & Hlist & Hcount); [reflexivity | |].
    + intros j Hj. assert (j = 0) as -> by lia. discriminate.
    + eexists. split; [exact Hrun |]. split; vm_compute; reflexivity.
  - apply Hout. intros Hel. apply list_elem_of_In in Hel. vm_compute in Hel.
    destruct Hel as [|[|[]]]; discriminate.
Defined.

(** X4: [removeHandler] with a name removes exactly one entry, the first
    one in list order whose handler carries the name; entries before it
    and after it stay, also later handlers with the same name. *)
Theorem removeHandler_by_name_first lg w s i hd :
  handlers_of (lg, w) !! i = Some hd →
  hd_name (heap w hd) = s →
  (∀ j hd', j < i → handlers_of (lg, w) !! j = Some hd' → hd_name (heap w hd') ≠ s) →
  removeHandler (VStr s) (lg, w)
  = (Ok tt, after_removal (delete i (handlers_of (lg, w))) (lg, w)) ∧
  handlers_of (removeHandler (VStr s) (lg, w)).2 = delete i (handlers_of (lg, w)) ∧
  length (delete i (handlers_of (lg, w))) = length (handlers_of (lg, w)) - 1.
Proof.
  intros Hi Hname Hmin.
  assert (Hrun : removeHandler (VStr s) (lg, w)
                 = (Ok tt, after_removal (delete i (handlers_of (lg, w))) (lg, w))).
  { rewrite removeHandler_cases.
    destruct (list_find _ _) as [[i' hd']|] eqn:Hfind.
    + apply list_find_Some in Hfind as (Hi' & Hname' & Hmin').
      assert (i' = i) as ->.
      { destruct (lt_eq_lt_dec i i') as [[Hlt | ->] | Hgt]; [| done |].
        - exfalso. by apply (Hmin' i hd Hi Hlt).
        - exfalso. by apply (Hmin i' hd' Hgt Hi'). }
      assert (hd' = hd) as -> by congruence.
      rewrite (py_remove_first hd _ i Hi); [done |].
      intros j Hj Hlook. by apply (Hmin j hd Hj Hlook).
    + apply list_find_None in Hfind. rewrite Forall_forall in Hfind.
      exfalso. apply (Hfind hd); [| done].
      apply list_elem_of_In. by eapply list_elem_of_lookup_2. }
  split; [exact Hrun |]. split.
  - rewrite Hrun. cbn [snd]. apply after_removal_handlers.
  - apply length_delete. by exists hd.
Qed.

Lemma removeHandler_by_name_first_witness :
  ∃ s', removeHandler (VStr "file") (Sample.sync [0; 1; 2]) = (Ok tt, s') ∧
        handlers_of s' = [0; 2].
Proof.
  destruct (removeHandler_by_name_first (Sample.plain [0; 1; 2])
              (Sample.world_of [0; 1; 2]) "file" 1 1) as (H1 & H2 & _);
    [reflexivity | reflexivity | |].
  - intros j hd' Hj Hlook. assert (j = 0) as -> by lia.
    injection Hlook as <-. discriminate.
  - eexists. split; [exact H1 |]. vm_compute. reflexivity.
Defined.

(** X5: [addHandler] followed by [removeHandler(-1)] gives back the
    handler list as it was, with the cached count equal to its length;
    both calls return normally, and apart from the one list object the
    store is untouched. *)
Theorem addHandler_then_remove_last lg w h :
  ∃ s1 s2,
    addHandler h (lg, w) = (Ok tt, s1) ∧
    handlers_of s1 = handlers_of (lg, w) ++ [h] ∧
    handlers_num s1.1 = S (length (handlers_of (lg, w))) ∧
    with_lists (lists w) s1.2 = w ∧
    removeHandler (VInt (-1)) s1 = (Ok tt, s2) ∧
    handlers_of s2 = handlers_of (lg, w) ∧
    handlers_num s2.1 = length (handlers_of (lg, w)) ∧
    (∀ l, lists s2.2 l = lists w l) ∧
    with_lists (lists w) s2.2 = w.
Proof.
  set (hs := handlers_of (lg, w)).
  set (s1 := after_removal (hs ++ [h]) (lg, w)).
  assert (Hs1 : handlers_of s1 = hs ++ [h]) by apply after_removal_handlers.
  assert (Hidx : py_index (length (handlers_of s1)) (-1) = Some (length hs)).
  { rewrite Hs1. rewrite <- (py_index_neg (length (hs ++ [h])) (length hs)).
    - f_equal. rewrite length_app. simpl. lia.
    - rewrite length_app. simpl. lia. }
  exists s1, (after_removal hs s1).
  split; [apply addHandler_eq |]. split; [exact Hs1 |]. split.
  { simpl. rewrite length_app. simpl. lia. }
  split; [apply after_removal_frame |]. split.
  { destruct s1 as [lg1 w1] eqn:Heq.
    rewrite (removeHandler_int_eq _ _ (VInt (-1)) (-1)%Z eq_refl), Hidx, Hs1.
    by rewrite (delete_middle hs [] h), app_nil_r. }
  split; [apply after_removal_handlers |]. split; [reflexivity |]. split.
  - intros l. unfold s1, after_removal. cbn [fst snd lists with_lists handlers
      with_handlers_num]. destruct (decide (handlers lg = l)) as [<-|Hne].
    + rewrite fn_lookup_insert. reflexivity.
    + by rewrite !fn_lookup_insert_ne.
  - unfold s1, after_removal, with_lists. cbn. apply World_eta.
Qed.

(** ** Further properties of [setLevelThreshold] *)

(** X6: a [setLevelThreshold] call whose selector selects no handler (an
    index out of range, a name that no handler carries, or a selector
    that is neither [int] nor [str]) raises, [IndexError], [ValueError]
    or [TypeError] by the kind of selector, and leaves the logger and
    every handler object as they were: no threshold is assigned although
    the number has already been wrapped. *)
Theorem setLevelThreshold_without_selection lg w handler new_threshold :
  selected (lg, w) handler = None →
  setLevelThreshold handler new_threshold (lg, w)
  = (Raise (no_selection_error handler), (lg, w)).
Proof. intros Hsel. by rewrite setLevelThreshold_cases, Hsel. Qed.

Lemma setLevelThreshold_without_selection_witness :
  setLevelThreshold (VInt 2) (ThNum (PyInt 30)) (Sample.sync [0; 1])
  = (Raise (IndexError "list index out of range"), Sample.sync [0; 1]) ∧
  setLevelThreshold (VStr "syslog") (ThNum (PyInt 30)) (Sample.sync [0; 1])
  = (Raise (does_not_exist "syslog"), Sample.sync [0; 1]).
Proof.
  split.
  - by apply (setLevelThreshold_without_selection (Sample.plain [0; 1])
                (Sample.world_of [0; 1]) (VInt 2)).
  - by apply (setLevelThreshold_without_selection (Sample.plain [0; 1])
                (Sample.world_of [0; 1]) (VStr "syslog")).
Defined.

(** X7: a [Handler] object is accepted as selector by [removeHandler] but
    not by [setLevelThreshold]: for a handler of the list the former
    returns normally and the latter raises [TypeError], changing
    nothing. *)
Theorem handler_object_selects_only_for_removal lg w h new_threshold :
  h ∈ handlers_of (lg, w) →
  (∃ msg, setLevelThreshold (VHandler h) new_threshold (lg, w)
          = (Raise (TypeError msg), (lg, w))) ∧
  (∃ s', removeHandler (VHandler h) (lg, w) = (Ok tt, s') ∧
         length (handlers_of s') = length (handlers_of (lg, w)) - 1 ∧
         with_lists (lists w) s'.2 = w).
Proof.
  intros Hin. split; [eexists; reflexivity |].
  rewrite removeHandler_cases. unfold py_remove.
  destruct (list_find (λ y, y = h) (handlers_of (lg, w))) as [[i y]|] eqn:Hfind.
  - apply list_find_Some in Hfind as (Hi & _ & _).
    eexists. split; [reflexivity |]. rewrite after_removal_handlers.
    split; [apply length_delete; by exists y | apply after_removal_frame].
  - apply list_find_None in Hfind. rewrite Forall_forall in Hfind.
    exfalso. apply (Hfind h); [by apply list_elem_of_In | done].
Qed.

Lemma handler_object_selects_only_for_removal_witness :
  (∃ msg, setLevelThreshold (VHandler 1) (ThNum (PyInt 30)) (Sample.sync [0; 1])
          = (Raise (TypeError msg), Sample.sync [0; 1])) ∧
  (∃ s', removeHandler (VHandler 1) (Sample.sync [0; 1]) = (Ok tt, s') ∧
         length (handlers_of s') = 1).
Proof.
  destruct (handler_object_selects_only_for_removal (Sample.plain [0; 1])
              (Sample.world_of [0; 1]) 1 (ThNum (PyInt 30))) as [H1 (s' & H2 & H3 & _)].
  - apply list_elem_of_In. vm_compute. by right; left.
  - split; [exact H1 |]. by exists s'.
Defined.

(** X8: [setLevelThreshold] never changes who is registered: whatever the
    selector and the threshold are and whether the call returns or raises,
    the handler list, the name of every handler object, the trace, the
    queues and the record count are as before.  When it returns, the
    cached count equals the length of the list. *)
Theorem setLevelThreshold_keeps_registration lg w handler new_threshold :
  let r := setLevelThreshold handler new_threshold (lg, w) in
  handlers r.2.1 = handlers lg ∧
  lists r.2.2 = lists w ∧
  handlers_of r.2 = handlers_of (lg, w) ∧
  name r.2.1 = name lg ∧
  (∀ h, hd_name (heap r.2.2 h) = hd_name (heap w h)) ∧
  calls r.2.2 = calls w ∧ lqueues r.2.2 = lqueues w ∧ aqueues r.2.2 = aqueues w ∧
  made r.2.2 = made w ∧
  (r.1 = Ok tt → handlers_num r.2.1 = length (handlers_of (lg, w))).
Proof.
  cbv zeta. rewrite setLevelThreshold_cases.
  destruct (selected (lg, w) handler) as [hd|] eqn:Hsel.
  - cbn. repeat split. intros h. destruct (decide (hd = h)) as [->|Hne].
    + by rewrite fn_lookup_insert.
    + by rewrite fn_lookup_insert_ne.
  - cbn. repeat split. discriminate.
Qed.

(** X9: a [setLevelThreshold] call that selects a handler assigns the
    threshold to that one handler object: a [LogLevel] argument is stored
    as it is, every list position that holds the selected object shows
    the new threshold, and every other handler object keeps its own, also
    one that carries the same name and comes later in the list. *)
Theorem setLevelThreshold_changes_one_object lg w handler new_threshold hd :
  selected (lg, w) handler = Some hd →
  ∃ lg' w',
    setLevelThreshold handler new_threshold (lg, w) = (Ok tt, (lg', w')) ∧
    hd_level (heap w' hd) = as_level new_threshold ∧
    (∀ l, new_threshold = ThLevel l → hd_level (heap w' hd) = l) ∧
    (∀ j, handlers_of (lg, w) !! j = Some hd →
          hd_level <$> (heap w' <$> handlers_of (lg', w') !! j)
          = Some (as_level new_threshold)) ∧
    (∀ other, other ≠ hd → heap w' other = heap w other).
Proof.
  intros Hsel. eexists _, _.
  rewrite (setLevelThreshold_selected _ _ _ _ hd Hsel).
  split; [reflexivity |]. unfold with_heap, handlers_of.
  cbn [fst snd heap lists handlers with_handlers_num].
  rewrite fn_lookup_insert. split; [reflexivity |]. split; [by intros l -> |]. split.
  - intros j Hj. unfold handlers_of in Hj. cbn [fst snd] in Hj. rewrite Hj. simpl.
    by rewrite fn_lookup_insert.
  - intros other Hne. by rewrite fn_lookup_insert_ne.
Qed.

Lemma setLevelThreshold_changes_one_object_witness :
  ∃ lg' w',
    setLevelThreshold (VStr "file") (ThLevel (Sample.lvl "WARN" 30))
      (Sample.sync [0; 1; 2; 1]) = (Ok tt, (lg', w')) ∧
    hd_level (heap w' 1) = Sample.lvl "WARN" 30 ∧
    hd_level <$> (heap w' <$> handlers_of (lg', w') !! 3) = Some (Sample.lvl "WARN" 30) ∧
    heap w' 2 = heap (Sample.world_of [0; 1; 2; 1]) 2.
Proof.
  destruct (setLevelThreshold_changes_one_object (Sample.plain [0; 1; 2; 1])
              (Sample.world_of [0; 1; 2; 1]) (VStr "file")
              (ThLevel (Sample.lvl "WARN" 30)) 1)
    as (lg' & w' & H1 & H2 & _ & H3 & H4); [reflexivity |].
  exists lg', w'. split; [exact H1 |]. split; [exact H2 |]. split.
  - by apply H3.
  - by apply H4.
Defined.

(** ** Further properties of construction *)

(** X10: construction returns a logger exactly when the modes are
    usable: always without [is_async], and with [is_async] when [enqueue]
    is unset and an event loop is running. *)
Theorem construction_succeeds_iff name hs enqueue is_async only_handler w :
  (∃ lg s, new_Logger name hs enqueue is_async only_handler w = (Ok lg, s)) ↔
  (is_async = true → enqueue = false ∧ is_Some (running_loop w)).
Proof.
  split.
  - intros (lg & s & Hnew) ->. destruct enqueue.
    + unfold new_Logger in Hnew. by rewrite init_both_eq in Hnew.
    + split; [done |]. destruct (running_loop w) eqn:Hloop; [by eexists |].
      unfold new_Logger in Hnew. by rewrite (init_async_no_loop_eq _ _ _ _ Hloop) in Hnew.
  - intros Hok. destruct is_async.
    + destruct Hok as [-> [l Hloop]]; [done |].
      rewrite (new_Logger_async_eq name hs only_handler w l Hloop). by eexists _, _.
    + destruct enqueue.
      * rewrite new_Logger_enqueue_eq. by eexists _, _.
      * rewrite new_Logger_sync_eq. by eexists _, _.
Qed.

(** What construction does to the list objects: a list given by the
    caller is kept as it is, and a single handler is wrapped in a new
    list, which leaves every existing list alone. *)
Lemma plain_world_lists hs w :
  (∀ l, hs = HList l → lists (plain_world hs w) = lists w) ∧
  (∀ h, hs = HOne h →
        ∀ l, l ≠ nlists w → lists (plain_world hs w) l = lists w l).
Proof.
  split.
  - by intros l ->.
  - intros h -> l Hne. simpl. by rewrite fn_lookup_insert_ne.
Qed.

(** X11: construction in thread-backed mode never fails.  The logger
    carries the name, the handler list (the caller's list object, or a
    new list that wraps a single handler) and its length as count; its
    queue is a new, empty queue and its worker a new thread standing
    before its first poll; the queues and threads that existed are
    untouched, and no asyncio queue, loop or task is involved. *)
Theorem thread_backed_construction name hs only_handler w :
  ∃ lg s q t,
    new_Logger name hs true false only_handler w = (Ok lg, s) ∧
    lg = logger_with name hs w true false only_handler (Some q) (Some t)
           None None None ∧
    handlers_of (lg, s.2) = arg_handlers hs w ∧
    handlers_num lg = length (arg_handlers hs w) ∧
    (∀ l, hs = HList l → handlers lg = l ∧ lists s.2 = lists w) ∧
    (∀ h, hs = HOne h → handlers_of (lg, s.2) = [h] ∧
                        ∀ l, l ≠ nlists w → lists s.2 l = lists w l) ∧
    q = length (lqueues w) ∧ t = length (threads w) ∧
    lqueues s.2 !! q = Some [] ∧ threads s.2 !! t = Some AtGet ∧
    (∀ q', q' < q → lqueues s.2 !! q' = lqueues w !! q') ∧
    (∀ t', t' < t → threads s.2 !! t' = threads w !! t') ∧
    aqueues s.2 = aqueues w ∧ tasks s.2 = tasks w ∧
    calls s.2 = calls w ∧ made s.2 = made w ∧ main_alive s.2 = main_alive w.
Proof.
  eexists _, _, _, _. rewrite new_Logger_enqueue_eq.
  split; [reflexivity |]. split; [reflexivity |].
  unfold handlers_of. cbn [fst snd lists with_threads with_lqueues logger_with
    handlers handlers_num].
  split; [apply plain_world_handlers |]. split; [reflexivity |].
  split; [by intros l -> |]. split.
  { intros h ->. split; [apply (plain_world_handlers (HOne h)) |].
    destruct (plain_world_lists (HOne h) w) as [_ Hl]. by apply (Hl h). }
  split; [reflexivity |]. split; [reflexivity |].
  destruct hs; cbn;
    (split; [by apply list_lookup_middle |]; split; [by apply list_lookup_middle |];
     split; [intros q' Hq'; by apply lookup_app_l |];
     split; [intros t' Ht'; by apply lookup_app_l |]; done).
Qed.

(** X12: construction in loop-backed mode with a running loop returns a
    logger that holds this loop, a new, empty asyncio queue and a newly
    scheduled task; no [LogQueue] is allocated and no thread started. *)
Theorem loop_backed_construction name hs only_handler w l :
  running_loop w = Some l →
  ∃ lg s q t,
    new_Logger name hs false true only_handler w = (Ok lg, s) ∧
    lg = logger_with name hs w false true only_handler None None
           (Some q) (Some l) (Some t) ∧
    handlers_of (lg, s.2) = arg_handlers hs w ∧
    q = length (aqueues w) ∧ t = length (tasks w) ∧
    aqueues s.2 !! q = Some [] ∧ tasks s.2 !! t = Some Scheduled ∧
    (∀ q', q' < q → aqueues s.2 !! q' = aqueues w !! q') ∧
    (∀ t', t' < t → tasks s.2 !! t' = tasks w !! t') ∧
    lqueues s.2 = lqueues w ∧ threads s.2 = threads w ∧
    calls s.2 = calls w ∧ made s.2 = made w.
Proof.
  intros Hloop. eexists _, _, _, _.
  rewrite (new_Logger_async_eq name hs only_handler w l Hloop).
  split; [reflexivity |]. split; [reflexivity |].
  unfold handlers_of. cbn [fst snd lists with_tasks with_aqueues logger_with
    handlers handlers_num].
  split; [apply plain_world_handlers |].
  split; [reflexivity |]. split; [reflexivity |].
  destruct hs; cbn;
    (split; [by apply list_lookup_middle |]; split; [by apply list_lookup_middle |];
     split; [intros q' Hq'; by apply lookup_app_l |];
     split; [intros t' Ht'; by apply lookup_app_l |]; done).
Qed.

Lemma loop_backed_construction_witness :
  ∃ lg s,
    new_Logger "app" (HOne 0) false true false SampleMore.looped = (Ok lg, s) ∧
    handlers_of (lg, s.2) = [0] ∧ loop lg = Some 7 ∧ async_queue lg = Some 0 ∧
    log_task lg = Some 0 ∧ tasks s.2 !! 0 = Some Scheduled.
Proof.
  destruct (loop_backed_construction "app" (HOne 0) false SampleMore.looped 7)
    as (lg & s & q & t & H1 & -> & H2 & -> & -> & _ & H3 & _); [reflexivity |].
  eexists _, s. split; [exact H1 |]. split; [exact H2 |].
  split; [reflexivity |]. split; [reflexivity |]. split; [reflexivity |]. exact H3.
Defined.

(** X13: construction in synchronous mode never fails and touches
    nothing but the uuid source and, for a single handler, the new list
    that wraps it.  An empty handler list is accepted too: the logger is
    returned with count 0, and it is the first log call that raises the
    no-handler error. *)
Theorem synchronous_construction env name hs only_handler w :
  ∃ lg s,
    new_Logger name hs false false only_handler w = (Ok lg, s) ∧
    lg = logger_with name hs w false false only_handler None None None None None ∧
    s.2 = plain_world hs w ∧
    (∀ l, hs = HList l → s.2 = with_uuids (S (uuids w)) w ∧ handlers lg = l) ∧
    (∀ h, hs = HOne h → handlers_of (lg, s.2) = [h] ∧ handlers_num lg = 1 ∧
                        ∀ l, l ≠ nlists w → lists s.2 l = lists w l) ∧
    (∀ l, hs = HList l → lists w l = [] →
       handlers_num lg = 0 ∧
       ∀ level message,
         log env level message (lg, s.2) = (Raise no_handler, (lg, s.2))).
Proof.
  eexists _, _. rewrite new_Logger_sync_eq.
  split; [reflexivity |]. split; [reflexivity |]. split; [reflexivity |].
  split; [by intros l -> |]. split.
  - intros h ->. split; [| split; [reflexivity |]].
    + unfold handlers_of. cbn [fst snd logger_with handlers].
      apply (plain_world_handlers (HOne h)).
    + destruct (plain_world_lists (HOne h) w) as [_ Hl]. by apply (Hl h).
  - intros l -> Hnil. cbn [logger_with arg_handlers handlers_num].
    rewrite Hnil. split; [reflexivity |].
    intros level message. apply log_empty_eq. simpl. by rewrite Hnil.
Qed.

(** X14: construction in loop-backed mode without a running loop raises
    the environment error after the asyncio queue has been created: the
    object has its plain attributes and [async_queue], one queue more
    exists than before, and there is no [loop] attribute, no [log_task]
    attribute and no task. *)
Theorem no_loop_leaves_queue name hs only_handler w :
  running_loop w = None →
  ∃ i w',
    new_Logger name hs false true only_handler w = (Raise no_loop, (i, w')) ∧
    i A_async_queue = Some (ARef (length (aqueues w))) ∧
    aqueues w' = aqueues w ++ [[]] ∧
    i A_loop = None ∧ i A_log_task = None ∧ tasks w' = tasks w ∧
    i A_name = Some (AStr name) ∧ i A_handlers = Some (ARef (arg_list hs w)) ∧
    i A_queue = None ∧ i A_log_thread = None ∧
    lqueues w' = lqueues w ∧ threads w' = threads w.
Proof.
  intros Hloop. eexists _, _. unfold new_Logger.
  rewrite (init_async_no_loop_eq _ _ _ _ Hloop).
  split; [reflexivity |]. by destruct hs.
Qed.

Lemma no_loop_leaves_queue_witness :
  ∃ i w',
    new_Logger "app" (HOne 0) false true false Sample.world0 = (Raise no_loop, (i, w')) ∧
    i A_async_queue = Some (ARef 0) ∧ aqueues w' = [[]] ∧ tasks w' = [].
Proof.
  destruct (no_loop_leaves_queue "app" (HOne 0) false Sample.world0)
    as (i & w' & H1 & H2 & H3 & _ & _ & H4 & _); [reflexivity |].
  by exists i, w'.
Defined.

(** X15: two thread-backed loggers constructed one after the other have
    different queues and different worker threads, and a log call on the
    first never touches the queue of the second. *)
Theorem thread_backed_loggers_are_separate env name1 hs1 o1 name2 hs2 o2 w lg1 s1 lg2 s2 :
  new_Logger name1 hs1 true false o1 w = (Ok lg1, s1) →
  new_Logger name2 hs2 true false o2 s1.2 = (Ok lg2, s2) →
  ∃ q1 q2 t1 t2,
    queue lg1 = Some q1 ∧ queue lg2 = Some q2 ∧ q1 ≠ q2 ∧
    log_thread lg1 = Some t1 ∧ log_thread lg2 = Some t2 ∧ t1 ≠ t2 ∧
    ∀ w' level message,
      lqueues (log env level message (lg1, w')).2.2 !! q2 = lqueues w' !! q2.
Proof.
  intros Hnew1 Hnew2.
  rewrite new_Logger_enqueue_eq in Hnew1. injection Hnew1 as <- <-.
  rewrite new_Logger_enqueue_eq in Hnew2. injection Hnew2 as <- _.
  eexists _, _, _, _. split; [reflexivity |]. split; [reflexivity |].
  cbn [snd lqueues threads with_threads with_lqueues].
  rewrite !length_app. simpl.
  split; [lia |]. split; [reflexivity |]. split; [reflexivity |].
  split; [lia |].
  intros w' level message. unfold log. rewrite log_cases.
  cbn [logger_with handlers_num enqueue queue].
  destruct (decide (length (arg_handlers hs1 w) = 0)) as [Hz|Hz]; [done |].
  simpl. apply list_lookup_alter_ne. lia.
Qed.

Lemma thread_backed_loggers_are_separate_witness :
  ∃ q1 q2 t1 t2,
    queue SampleMore.logger_a = Some q1 ∧ queue SampleMore.logger_b = Some q2 ∧ q1 ≠ q2 ∧
    log_thread SampleMore.logger_a = Some t1 ∧
    log_thread SampleMore.logger_b = Some t2 ∧ t1 ≠ t2 ∧
    ∀ w' level message,
      lqueues (log Sample.env0 level message (SampleMore.logger_a, w')).2.2 !! q2
      = lqueues w' !! q2.
Proof.
  apply (thread_backed_loggers_are_separate Sample.env0 "a" (HOne 0) false
           "b" (HOne 1) false Sample.world0
           SampleMore.logger_a SampleMore.built_a.2
           SampleMore.logger_b SampleMore.built_b.2).
  - vm_compute. reflexivity.
  - vm_compute. reflexivity.
Defined.

(** ** Further properties of [close] and the drain loops *)






Lemma run_step env ev evs s s1 :
  step env ev s = Some s1 → run env (ev :: evs) s = run env evs s1.
Proof. intros Hstep. cbn [run]. by rewrite Hstep. Qed.

Section WorkerMore.

Context (env : Env) (lg : Logger) (q t : nat).
Hypothesis Henqueue : enqueue lg = true.
Hypothesis Hqueue : queue lg = Some q.
Hypothesis Hthread : log_thread lg = Some t.

(** Only the end of the main thread changes [main_alive]. *)
Lemma run_main_stays evs : ∀ w s,
  main_stays evs = true →
  run env evs (lg, w) = Some s →
  main_alive s.2 = main_alive w.
Proof.
  induction evs as [|ev evs IH]; intros w s Hstay Hrun.
  - by injection Hrun as <-.
  - cbn [run] in Hrun. simpl in Hstay.
    apply andb_true_iff in Hstay as [Hev Hstay].
    destruct (step env ev (lg, w)) as [s1|] eqn:Hstep; [| discriminate].
    simpl in Hrun. destruct ev as [level message | | |]; [| | | discriminate].
    + rewrite (step_log_eq env lg q Henqueue Hqueue) in Hstep. injection Hstep as <-.
      rewrite (IH _ _ Hstay Hrun). by destruct (decide (handlers_num lg = 0)).
    + apply (step_poll_inv env lg q t Hqueue Hthread) in Hstep
        as (Hget & [(record & rest & Hhead & ->) | (Hempty & ->)]).
      * destruct (worker_try_cases t (ending (fan_trace env lg w record).2)
                    (lg, with_calls (calls w ++ (fan_trace env lg w record).1)
                           (with_lqueues (<[q := rest]> (lqueues w)) w)))
          as [Heq | [Heq | (e & _ & Heq)]];
          rewrite Heq in Hrun; unfold set_pc in Hrun; cbn [fst snd] in Hrun;
          by rewrite (IH _ _ Hstay Hrun).
      * unfold set_pc in Hrun. cbn [fst snd] in Hrun. by rewrite (IH _ _ Hstay Hrun).
    + apply (step_check_inv env lg t Hthread) in Hstep as (Hcheck & ->).
      unfold set_pc in Hrun. cbn [fst snd] in Hrun. by rewrite (IH _ _ Hstay Hrun).
Qed.

Lemma polls_drain items : ∀ w,
  quiet env w (handlers_of (lg, w)) →
  threads w !! t = Some AtGet → lqueues w !! q = Some items →
  ∃ w', run env (polls (length items)) (lg, w) = Some (lg, w') ∧
        lqueues w' !! q = Some [] ∧
        calls w' = calls w ++ all_deliveries (handlers_of (lg, w)) items ∧
        threads w' = threads w ∧ main_alive w' = main_alive w.
Proof.
  induction items as [|record rest IH]; intros w Hquiet Hpc Hitems.
  - exists w. simpl. rewrite app_nil_r. done.
  - cbn [length polls replicate run].
    rewrite (poll_head_quiet env lg w t q record rest Hthread Hqueue Hpc Hitems Hquiet).
    simpl.
    edestruct (IH (with_calls (calls w ++ deliveries (handlers_of (lg, w)) record)
                     (with_lqueues (<[q := rest]> (lqueues w)) w)))
      as (w' & Hrun & Hq' & Hcalls & Hthreads & Hmain).
    + exact Hquiet.
    + exact Hpc.
    + simpl. apply list_lookup_insert_eq. by eapply lookup_lt_Some.
    + exists w'. split; [exact Hrun |]. split; [exact Hq' |].
      split; [| by split].
      rewrite Hcalls. simpl. by rewrite all_deliveries_cons, app_assoc.
Qed.

Lemma run_after_ended evs : ∀ w pc items s,
  threads w !! t = Some pc → ended pc → lqueues w !! q = Some items →
  run env evs (lg, w) = Some s →
  s.1 = lg ∧ calls s.2 = calls w ∧ threads s.2 !! t = Some pc ∧
  lqueues s.2 !! q = Some (items ++ enqueued env evs (lg, w)).
Proof.
  induction evs as [|ev evs IH]; intros w pc items s Hpc Hend Hitems Hrun.
  - injection Hrun as <-. simpl. by rewrite app_nil_r.
  - cbn [run enqueued] in *.
    destruct (step env ev (lg, w)) as [s1|] eqn:Hstep; [| discriminate].
    simpl in Hrun. destruct ev as [level message | | |].
    + rewrite (step_log_eq env lg q Henqueue Hqueue) in Hstep. injection Hstep as <-.
      cbn [fst snd]. destruct (decide (handlers_num lg = 0)) as [Hz|Hz].
      * by apply (IH w pc).
      * match type of Hrun with run _ _ (_, ?w1) = _ =>
          destruct (IH w1 pc (items ++ [record_at env lg level message (made w)]) s)
            as (H1 & H2 & H3 & H4)
        end; [done | done | simpl; by rewrite list_lookup_alter_eq, Hitems | done |].
        rewrite H4, <- app_assoc. done.
    + apply (step_poll_inv env lg q t Hqueue Hthread) in Hstep as (Hget & _).
      rewrite Hpc in Hget. injection Hget as ->. destruct Hend as [|[e ?]]; discriminate.
    + apply (step_check_inv env lg t Hthread) in Hstep as (Hcheck & _).
      rewrite Hpc in Hcheck. injection Hcheck as ->.
      destruct Hend as [|[e ?]]; discriminate.
    + injection Hstep as <-. simpl.
      match type of Hrun with run _ _ (_, ?w1) = _ =>
        destruct (IH w1 pc items s) as (H1 & H2 & H3 & H4)
      end; done.
Qed.

End WorkerMore.

(** X18: in thread-backed mode, while the main thread is alive the
    worker does not return: after any run of log calls and worker steps
    in which the main thread does not end, the worker has not returned,
    and [close] can return only because a handler raised and so ended
    the worker thread.  If no handler raises, the worker is still in its
    loop and [close] blocks. *)
Theorem close_blocks_while_main_alive env lg w q t evs s :
  enqueue lg = true → queue lg = Some q → log_thread lg = Some t →
  main_alive w = true → threads w !! t = Some AtGet →
  main_stays evs = true →
  run env evs (lg, w) = Some s →
  main_alive s.2 = true ∧ threads s.2 !! t ≠ Some Finished ∧
  (∀ r, close s = Some r →
        ∃ e h record,
          threads s.2 !! t = Some (Crashed e) ∧
          h ∈ handlers_of (lg, w) ∧
          handle_outcome env h (heap w h) record = Some e) ∧
  (quiet env w (handlers_of (lg, w)) → close s = None).
Proof.
  intros He Hq Ht Halive Hpc Hstay Hrun.
  assert (Hmain : main_alive s.2 = true)
    by (by rewrite (run_main_stays env lg q t He Hq Ht evs w s Hstay Hrun)).
  assert (Hnot : threads s.2 !! t ≠ Some Finished).
  { intros Hfin.
    assert (Hdead : main_alive s.2 = false).
    { eapply (run_finished env lg q t He Hq Ht evs w s); [| done | done].
      rewrite Hpc. discriminate. }
    congruence. }
  destruct (run_frame env lg q t He Hq Ht evs w s Hrun) as (Hlg & _ & _).
  assert (Hclose : ∀ r, close s = Some r →
            ∃ e h record,
              threads s.2 !! t = Some (Crashed e) ∧
              h ∈ handlers_of (lg, w) ∧
              handle_outcome env h (heap w h) record = Some e).
  { intros r Hr. destruct (close_inv lg t He Ht s r Hlg Hr) as [_ (pc & Hpc' & Hend)].
    destruct Hend as [-> | [e ->]]; [done |].
    destruct (run_crashed env lg q t He Hq Ht evs w s e) as (h & record & Hin & Hout);
      [intros e'; rewrite Hpc; discriminate | done | done |].
    by exists e, h, record. }
  split; [exact Hmain |]. split; [exact Hnot |]. split; [exact Hclose |].
  intros Hquiet. destruct (close s) as [r|] eqn:Hr; [| done].
  destruct (Hclose r eq_refl) as (e & h & record & _ & Hin & Hout).
  rewrite (Hquiet h Hin record) in Hout. discriminate.
Qed.

Lemma close_blocks_while_main_alive_witness :
  ∃ s, run Sample.env0 [EvLog (LvName "INFO") (MsgStr "a"); EvPoll; EvPoll; EvCheck]
         SampleRuns.queued = Some s ∧
       close s = None.
Proof.
  assert (Hrun : ∃ s, run Sample.env0
                        [EvLog (LvName "INFO") (MsgStr "a"); EvPoll; EvPoll; EvCheck]
                        SampleRuns.queued = Some s)
    by (eexists; vm_compute; reflexivity).
  destruct Hrun as (s & Hrun). exists s. split; [exact Hrun |].
  destruct (close_blocks_while_main_alive Sample.env0 SampleRuns.queued.1
              SampleRuns.queued.2 0 0
              [EvLog (LvName "INFO") (MsgStr "a"); EvPoll; EvPoll; EvCheck] s)
    as (_ & _ & _ & Hblock);
    [reflexivity | reflexivity | reflexivity | reflexivity | reflexivity | reflexivity
    | exact Hrun |].
  apply Hblock. sample_quiet.
Defined.

(** X19: orderly shutdown in thread-backed mode when no handler raises.
    With the worker in its loop and [items] in the queue, as many polls
    as there are items, followed by the end of the main thread, one more
    poll and the [except] clause, is a run that the system can make; it
    passes every item to every handler in queue order, empties the
    queue, and after it [close] returns. *)
Theorem drain_then_shutdown env lg w q t items :
  enqueue lg = true → queue lg = Some q → log_thread lg = Some t →
  threads w !! t = Some AtGet → lqueues w !! q = Some items →
  quiet env w (handlers_of (lg, w)) →
  ∃ s, run env (polls (length items) ++ shutdown) (lg, w) = Some s ∧
       calls s.2 = calls w ++ all_deliveries (handlers_of (lg, w)) items ∧
       lqueues s.2 !! q = Some [] ∧
       threads s.2 !! t = Some Finished ∧
       close s = Some (Ok tt, s).
Proof.
  intros He Hq Ht Hpc Hitems Hquiet.
  destruct (polls_drain env lg q t Hq Ht items w Hquiet Hpc Hitems)
    as (w' & Hrun & Hq' & Hcalls & Hthreads & Hmain).
  assert (Hlt : t < length (threads w')) by (rewrite Hthreads; by eapply lookup_lt_Some).
  rewrite <- Hthreads in Hpc.
  set (w1 := with_main_alive false w').
  set (w2 := with_threads (<[t := AtCheck]> (threads w1)) w1).
  set (w3 := with_threads (<[t := Finished]> (threads w2)) w2).
  assert (H1 : step env EvMainExit (lg, w') = Some (lg, w1)) by reflexivity.
  assert (H2 : step env EvPoll (lg, w1) = Some (lg, w2)).
  { unfold step, __enqueueHandler_get. cbn [fst snd]. rewrite Ht, Hq.
    subst w1. cbn [threads lqueues with_main_alive]. by rewrite Hpc, Hq'. }
  assert (H3 : step env EvCheck (lg, w2) = Some (lg, w3)).
  { unfold step, __enqueueHandler_except. cbn [fst snd]. rewrite Ht.
    subst w2 w1. cbn [threads main_alive with_threads with_main_alive].
    by rewrite list_lookup_insert_eq. }
  assert (Hfin : threads w3 !! t = Some Finished).
  { subst w3 w2 w1. cbn [threads with_threads with_main_alive].
    rewrite list_lookup_insert_eq; [done |]. by rewrite length_insert. }
  exists (lg, w3). split.
  - rewrite run_app, Hrun. unfold shutdown. cbn [mbind option_bind].
    rewrite (run_step _ _ _ _ _ H1), (run_step _ _ _ _ _ H2), (run_step _ _ _ _ _ H3).
    reflexivity.
  - split; [exact Hcalls |]. split; [exact Hq' |]. split; [exact Hfin |].
    unfold close, Thread_join. cbn [fst snd]. by rewrite He, Ht, Hfin.
Qed.

Lemma drain_then_shutdown_witness :
  ∃ s, run Sample.env0 (polls 2 ++ shutdown) SampleMore.loaded = Some s ∧
       calls s.2 = all_deliveries [0; 1] SampleMore.backlog ∧
       lqueues s.2 !! 0 = Some [] ∧
       close s = Some (Ok tt, s).
Proof.
  destruct (drain_then_shutdown Sample.env0 SampleMore.loaded.1 SampleMore.loaded.2 0 0
              SampleMore.backlog) as (s & H1 & H2 & H3 & _ & H4);
    [reflexivity | reflexivity | reflexivity | reflexivity | reflexivity | sample_quiet |].
  exists s. split; [exact H1 |]. split; [exact H2 |]. split; [exact H3 | exact H4].
Defined.

(** X20: once the worker thread has ended, by a return or by the
    exception of a handler, no handler is called in thread-backed mode
    any more: after any further run the trace is as it was, the worker
    is as it ended, and every record logged since is in the queue behind
    those that were there. *)
Theorem nothing_handled_after_worker_returned env lg w q t pc items evs s :
  enqueue lg = true → queue lg = Some q → log_thread lg = Some t →
  threads w !! t = Some pc → ended pc → lqueues w !! q = Some items →
  run env evs (lg, w) = Some s →
  calls s.2 = calls w ∧ threads s.2 !! t = Some pc ∧
  lqueues s.2 !! q = Some (items ++ enqueued env evs (lg, w)).
Proof.
  intros He Hq Ht Hpc Hend Hitems Hrun.
  by destruct (run_after_ended env lg q t He Hq Ht evs w pc items s Hpc Hend Hitems Hrun)
    as (_ & H).
Qed.

Lemma nothing_handled_after_worker_returned_witness :
  ∃ s, run Sample.env0 [EvLog (LvName "INFO") (MsgStr "late"); EvMainExit]
         SampleMore.stopped = Some s ∧
       calls s.2 = calls SampleMore.stopped.2 ∧
       threads s.2 !! 0 = Some Finished.
Proof.
  assert (Hrun : ∃ s, run Sample.env0 [EvLog (LvName "INFO") (MsgStr "late"); EvMainExit]
                        SampleMore.stopped = Some s)
    by (eexists; vm_compute; reflexivity).
  destruct Hrun as (s & Hrun). exists s. split; [exact Hrun |].
  destruct (nothing_handled_after_worker_returned Sample.env0 SampleMore.stopped.1
              SampleMore.stopped.2 0 0 Finished []
              [EvLog (LvName "INFO") (MsgStr "late"); EvMainExit] s) as (H1 & H2 & _);
    [reflexivity | reflexivity | reflexivity | reflexivity | by left | reflexivity
    | exact Hrun |].
  by split.
Defined.

Lemma async_round_idle env lg w t q :
  async_queue lg = Some q →
  tasks w !! t = Some Scheduled → aqueues w !! q = Some [] →
  __async_enqueueHandler_round env t (lg, w) = Some (lg, w).
Proof.
  intros Hq Hpc Hitems. unfold __async_enqueueHandler_round. cbn [fst snd].
  by rewrite Hq, Hpc, Hitems.
Qed.

(** X21: the drain loop of loop-backed mode works first in, first out
    when no handler raises.  With the task scheduled and [items] in the
    asyncio queue, as many rounds as there are items pass every item to
    every handler, in queue order and handler-list order, and empty the
    queue; a round on the empty queue (the timeout) changes nothing. *)
Theorem async_rounds_drain_in_order env lg q t items : ∀ w,
  async_queue lg = Some q →
  tasks w !! t = Some Scheduled → aqueues w !! q = Some items →
  quiet env w (handlers_of (lg, w)) →
  ∃ w', async_rounds env t (length items) (lg, w) = Some (lg, w') ∧
        aqueues w' !! q = Some [] ∧
        calls w' = calls w ++ all_deliveries (handlers_of (lg, w)) items ∧
        tasks w' = tasks w ∧
        __async_enqueueHandler_round env t (lg, w') = Some (lg, w').
Proof.
  induction items as [|record rest IH]; intros w Hq Hpc Hitems Hquiet.
  - exists w. simpl. rewrite app_nil_r.
    split; [done |]. split; [done |]. split; [done |]. split; [done |].
    by apply (async_round_idle env lg w t q).
  - cbn [length async_rounds].
    rewrite (async_round_head_quiet env lg w t q record rest Hq Hpc Hitems Hquiet).
    cbn [mbind option_bind].
    edestruct (IH (with_calls (calls w ++ deliveries (handlers_of (lg, w)) record)
                     (with_aqueues (<[q := rest]> (aqueues w)) w)))
      as (w' & Hrun & Hq' & Hcalls & Htasks & Hidle).
    + exact Hq.
    + exact Hpc.
    + simpl. apply list_lookup_insert_eq. by eapply lookup_lt_Some.
    + exact Hquiet.
    + exists w'. split; [exact Hrun |]. split; [exact Hq' |].
      split; [| split; [exact Htasks | exact Hidle]].
      rewrite Hcalls. simpl. by rewrite all_deliveries_cons, app_assoc.
Qed.

Lemma async_rounds_drain_in_order_witness :
  ∃ w', async_rounds Sample.env0 0 2 (SampleMore.looping.1, SampleMore.pending_async)
        = Some (SampleMore.looping.1, w') ∧
        aqueues w' !! 0 = Some [] ∧
        calls w' = all_deliveries [0; 1] SampleMore.backlog.
Proof.
  destruct (async_rounds_drain_in_order Sample.env0 SampleMore.looping.1 0 0
              SampleMore.backlog SampleMore.pending_async)
    as (w' & H1 & H2 & H3 & _); [reflexivity | reflexivity | reflexivity | sample_quiet |].
  by exists w'.
Defined.

(** X22: a record that is still queued when the last handler is removed
    is lost without any error: the log call returns, the removal
    returns, and the worker's next poll takes the record from the queue
    and passes it to nobody. *)
Theorem queued_record_lost_without_handlers env lg w q t h level message :
  enqueue lg = true → queue lg = Some q → log_thread lg = Some t →
  handlers_of (lg, w) = [h] → handlers_num lg = 1 →
  lqueues w !! q = Some [] → threads w !! t = Some AtGet →
  ∃ w1 s2 s3,
    log env level message (lg, w) = (Ok tt, (lg, w1)) ∧
    lqueues w1 !! q = Some [record_at env lg level message (made w)] ∧
    removeHandler (VInt 0) (lg, w1) = (Ok tt, s2) ∧
    handlers_of s2 = [] ∧ handlers_num s2.1 = 0 ∧
    step env EvPoll s2 = Some s3 ∧
    s3.1 = s2.1 ∧
    threads s3.2 = threads w ∧
    lqueues s3.2 !! q = Some [] ∧
    calls s3.2 = calls w.
Proof.
  intros He Hq Ht Hh Hn Hempty Hpc. eexists _, _, _. unfold log.
  rewrite (log_enqueue_eq _ _ _ _ _ q) by (done || lia).
  split; [reflexivity |]. split.
  { simpl. by rewrite list_lookup_alter_eq, Hempty. }
  rewrite (removeHandler_int_eq _ _ (VInt 0) 0%Z eq_refl).
  change (handlers_of (lg, with_lqueues
            (alter (λ items, items ++ [record_at env lg level message (made w)]) q
               (lqueues w)) (with_made (S (made w)) w)))
    with (handlers_of (lg, w)).
  rewrite Hh. cbn [length]. change (py_index 1 0) with (Some 0).
  change (delete 0 [h]) with (@nil href).
  split; [reflexivity |]. split; [apply after_removal_handlers |].
  split; [reflexivity |].
  assert (Hlt : q < length (lqueues w)) by (by eapply lookup_lt_Some).
  unfold after_removal. cbn [fst snd length].
  erewrite (poll_head_eq env _ _ t q _ []); [| exact Ht | exact Hq | exact Hpc |].
  - unfold fan_trace, handlers_of.
    cbn [fst snd lists with_lists handlers with_handlers_num].
    rewrite fn_lookup_insert. cbn [loop_trace fst snd].
    split; [reflexivity |]. split; [reflexivity |]. split; [reflexivity |].
    cbn [fst snd lqueues calls threads with_calls with_lqueues with_lists with_made].
    rewrite app_nil_r. split; [| done].
    apply list_lookup_insert_eq. by rewrite length_alter.
  - cbn [lqueues with_lists with_lqueues with_made].
    by rewrite list_lookup_alter_eq, Hempty.
Qed.

Lemma queued_record_lost_without_handlers_witness :
  ∃ w1 s2 s3,
    log Sample.env0 (LvName "INFO") (MsgStr "x") SampleMore.single
    = (Ok tt, (SampleMore.single.1, w1)) ∧
    removeHandler (VInt 0) (SampleMore.single.1, w1) = (Ok tt, s2) ∧
    step Sample.env0 EvPoll s2 = Some s3 ∧
    lqueues s3.2 !! 0 = Some [] ∧ calls s3.2 = [].
Proof.
  destruct (queued_record_lost_without_handlers Sample.env0 SampleMore.single.1
              SampleMore.single.2 0 0 0 (LvName "INFO") (MsgStr "x"))
    as (w1 & s2 & s3 & H1 & _ & H2 & _ & _ & H3 & _ & _ & H4 & H5);
    [reflexivity | reflexivity | reflexivity | reflexivity | reflexivity | reflexivity
    | reflexivity |].
  by exists w1, s2, s3.
Defined.

(** ** Further properties of logging *)

(** X23: no log call of any kind changes the logger (handler list, cached
    count, flags), a handler object or the state of a thread or task,
    whether it returns or raises.  A call on a logger in one of the
    queued modes never calls a handler itself, and a call on a
    synchronous logger never touches a queue. *)
Theorem log_changes_no_configuration env lg w level message :
  let r := log env level message (lg, w) in
  r.2.1 = lg ∧
  lists r.2.2 = lists w ∧ handlers_of r.2 = handlers_of (lg, w) ∧
  heap r.2.2 = heap w ∧ threads r.2.2 = threads w ∧ tasks r.2.2 = tasks w ∧
  main_alive r.2.2 = main_alive w ∧
  (enqueue lg = true ∨ is_async lg = true → calls r.2.2 = calls w) ∧
  (enqueue lg = false → lqueues r.2.2 = lqueues w) ∧
  (enqueue lg = false → is_async lg = false → aqueues r.2.2 = aqueues w).
Proof.
  cbv zeta. unfold log. rewrite log_cases.
  destruct (decide (handlers_num lg = 0)); [by repeat split |].
  destruct (enqueue lg) eqn:He.
  - destruct (queue lg); repeat split; (done || discriminate).
  - destruct (is_async lg) eqn:Ha.
    + destruct (async_queue lg); repeat split; (done || discriminate).
    + repeat split; try done. by intros [|].
Qed.

(** X24: a logger without handlers starts to log when a handler is
    added, and stops again when it is removed: in synchronous mode, with
    an empty handler list, [log] raises; after [addHandler h] the same
    call calls [h] exactly once, and returns unless [h] raises; after
    [removeHandler(h)] the call raises the no-handler error again and
    the trace stays as it is. *)
Theorem adding_a_handler_enables_logging env lg w h level message :
  synchronous lg → handlers_of (lg, w) = [] → handlers_num lg = 0 →
  ∃ s1 r w1 s2 record,
    log env level message (lg, w) = (Raise no_handler, (lg, w)) ∧
    addHandler h (lg, w) = (Ok tt, s1) ∧
    handlers_of s1 = [h] ∧
    log env level message s1 = (r, (s1.1, w1)) ∧
    calls w1 = calls w ++ [(h, record)] ∧
    r_message record = message ∧
    r = ending (handle_outcome env h (heap w h) record) ∧
    (handle_outcome env h (heap w h) record = None → r = Ok tt) ∧
    removeHandler (VHandler h) (s1.1, w1) = (Ok tt, s2) ∧
    handlers_of s2 = [] ∧
    calls s2.2 = calls w1 ∧
    log env level message s2 = (Raise no_handler, s2).
Proof.
  intros [He Ha] Hh Hn.
  set (s1 := after_removal [h] (lg, w)).
  assert (Hadd : addHandler h (lg, w) = (Ok tt, s1))
    by (rewrite addHandler_eq, Hh; reflexivity).
  assert (Hs1 : handlers_of s1 = [h]) by apply after_removal_handlers.
  set (record := record_at env lg level message (made w)).
  set (w1 := with_calls (calls s1.2 ++ [(h, record)]) (with_made (made s1.2 + 1) s1.2)).
  assert (Hlog : __log env level message s1
                 = (ending (handle_outcome env h (heap w h) record), (s1.1, w1))).
  { destruct s1 as [lg1 w0] eqn:Heq.
    rewrite log_sync_eq; [| by injection Heq as <- _ | injection Heq as <- _; discriminate].
    unfold sync_trace. rewrite Hs1. cbn [loop_trace].
    assert (Hheap : heap w0 = heap w) by (by injection Heq as _ <-).
    assert (Hmade : made w0 = made w) by (by injection Heq as _ <-).
    assert (Hrec : record_at env lg1 level message = record_at env lg level message)
      by (by injection Heq as <- _).
    unfold w1. cbn [fst snd]. rewrite Hheap, Hmade, Hrec. fold record.
    by destruct (handle_outcome env h (heap w h) record). }
  exists s1, (ending (handle_outcome env h (heap w h) record)), w1,
    (after_removal [] (s1.1, w1)), record.
  unfold log.
  split; [by apply log_empty_eq |]. split; [exact Hadd |]. split; [exact Hs1 |].
  split; [exact Hlog |]. split; [reflexivity |]. split; [reflexivity |].
  split; [reflexivity |]. split; [by intros -> |]. split.
  - rewrite removeHandler_cases.
    change (handlers_of (s1.1, w1)) with (handlers_of s1). rewrite Hs1.
    unfold py_remove. cbn [list_find]. rewrite decide_True by done. reflexivity.
  - split; [apply after_removal_handlers |]. split; [reflexivity |].
    by apply log_empty_eq.
Qed.

Lemma adding_a_handler_enables_logging_witness :
  ∃ s1 w1 record,
    addHandler 1 (Sample.sync []) = (Ok tt, s1) ∧
    log Sample.env0 (LvName "INFO") (MsgStr "x") s1 = (Ok tt, (s1.1, w1)) ∧
    calls w1 = [(1, record)].
Proof.
  destruct (adding_a_handler_enables_logging Sample.env0 (Sample.plain [])
              (Sample.world_of []) 1 (LvName "INFO") (MsgStr "x"))
    as (s1 & r & w1 & s2 & record & _ & H1 & _ & H2 & H3 & _ & _ & H4 & _);
    [by split | reflexivity | reflexivity |].
  exists s1, w1, record. split; [exact H1 |]. split; [| exact H3].
  rewrite H2. by rewrite H4.
Defined.

(** X25: every record that a synchronous log call passes to a handler
    carries the name of the logger, the message of the call, the level of
    the call (a level given by name is the one the registry resolves the
    name to) with [levelName] equal to the name of that level, an empty
    [time], and an identity that no earlier record has.  The call passes
    a record to every handler, and returns, unless a handler raises. *)
Theorem handled_records_carry_the_call env lg w level message :
  synchronous lg → handlers_num lg ≠ 0 →
  ∃ new_calls r w',
    log env level message (lg, w) = (r, (lg, w')) ∧
    calls w' = calls w ++ new_calls ∧
    length new_calls ≤ length (handlers_of (lg, w)) ∧
    (quiet env w (handlers_of (lg, w)) →
       r = Ok tt ∧ length new_calls = length (handlers_of (lg, w))) ∧
    ∀ h record, (h, record) ∈ new_calls →
      h ∈ handlers_of (lg, w) ∧
      r_name record = name lg ∧
      r_message record = message ∧
      r_level record = resolve env level ∧
      r_levelName record = level_name (resolve env level) ∧
      r_time record = "" ∧
      made w ≤ obj_id record < made w'.
Proof.
  intros Hs Hn.
  eexists _, _, _. unfold log. rewrite log_sync_eq by done.
  split; [reflexivity |]. split; [reflexivity |].
  unfold sync_trace.
  set (tr := loop_trace env (heap w) (record_at env lg level message) (made w)
               (handlers_of (lg, w))).
  destruct (loop_trace_length env (heap w) (record_at env lg level message)
              (handlers_of (lg, w)) (made w)) as (Hle & _ & _). fold tr in Hle.
  split; [exact Hle |]. split.
  { intros Hq. subst tr. rewrite loop_trace_quiet by done. cbn [fst snd ending].
    split; [done |]. rewrite length_zip, length_fmap, length_seq. lia. }
  intros h record Hin.
  assert (Hzip : tr.1 = zip (handlers_of (lg, w))
                          (record_at env lg level message <$> seq (made w) (length tr.1)))
    by apply loop_trace_zip.
  rewrite Hzip in Hin.
  apply elem_of_lookup_zip_with in Hin as (i & h' & r & [= <- <-] & Hh & Hr).
  rewrite list_lookup_fmap in Hr.
  destruct (seq (made w) (length tr.1) !! i) as [n|] eqn:Hseq; [| discriminate].
  injection Hr as <-. apply lookup_seq in Hseq as [-> Hi].
  split; [by eapply list_elem_of_lookup_2 |].
  repeat split; simpl; lia.
Qed.

Lemma handled_records_carry_the_call_witness :
  ∃ new_calls w',
    log Sample.env0 (LvName "AUDIT") (MsgStr "x") (Sample.sync [0; 1])
    = (Ok tt, (Sample.plain [0; 1], w')) ∧
    calls w' = new_calls ∧ length new_calls = 2 ∧
    ∀ h record, (h, record) ∈ new_calls →
      r_name record = "app" ∧ r_levelName record = "AUDIT".
Proof.
  destruct (handled_records_carry_the_call Sample.env0 (Sample.plain [0; 1])
              (Sample.world_of [0; 1]) (LvName "AUDIT") (MsgStr "x"))
    as (new_calls & r & w' & H1 & H2 & _ & H3 & H4); [by split | discriminate |].
  destruct H3 as [-> H3]; [sample_quiet |].
  exists new_calls, w'. split; [exact H1 |]. split; [exact H2 |]. split; [exact H3 |].
  intros h record Hin. destruct (H4 h record Hin) as (_ & Hname & _ & _ & Hlevel & _).
  by split.
Defined.
